(** * Motion control and ultrasonic monitoring of the RaspTank robot

    A shallow embedding of [web/move.py] (the PCA9685 motor layer) and of
    [web/ultrasonic_monitor.py] (the background distance poller), with the
    properties of both that the specification states.

    Numbers.  Python mixes [int] and [float] freely in these modules
    ([speed * radius], [1.0 / self.update_rate], [round(distance, 2)]).
    Both are embedded in [Q]: every quantity is the exact rational that the
    Python value denotes, and equalities between throttles, sleeps and
    distances are stated with [==]. *)

From Stdlib Require Import ZArith QArith Qround Qabs Bool List String Lia Lqa.
Import ListNotations.

Open Scope Z_scope.
Open Scope Q_scope.

(* ====================================================================== *)
(** * Part I: [web/move.py]                                               *)
(* ====================================================================== *)

Module Move.

(** ** Module-level constants *)

Definition M1_Direction : Z := 1.    (* Right motor direction multiplier *)
Definition M2_Direction : Z := 1.    (* Left motor direction multiplier *)

Definition TL_LEFT_Offset  : Z := 10.
Definition TL_RIGHT_Offset : Z := 0.

Definition FREQ : Z := 50.

(** ** The globals bound by [setup()]

    [motor1] .. [motor4] are [DCMotor] objects of which only the attribute
    [throttle] is ever written; [pwm_motor] is the PCA9685 of which only
    [frequency] is written.  The record is the state of these globals once
    [setup()] has bound them. *)

Record Hardware : Type := mkHardware {
  motor1 : Q;          (* motor1.throttle, right motor *)
  motor2 : Q;          (* motor2.throttle, left motor *)
  motor3 : Q;          (* motor3.throttle *)
  motor4 : Q;          (* motor4.throttle *)
  frequency : Z        (* pwm_motor.frequency *)
}.

Definition set_frequency (f : Z) (hw : Hardware) : Hardware :=
  mkHardware (motor1 hw) (motor2 hw) (motor3 hw) (motor4 hw) f.

Definition set_motor1 (t : Q) (hw : Hardware) : Hardware :=
  mkHardware t (motor2 hw) (motor3 hw) (motor4 hw) (frequency hw).
Definition set_motor2 (t : Q) (hw : Hardware) : Hardware :=
  mkHardware (motor1 hw) t (motor3 hw) (motor4 hw) (frequency hw).
Definition set_motor3 (t : Q) (hw : Hardware) : Hardware :=
  mkHardware (motor1 hw) (motor2 hw) t (motor4 hw) (frequency hw).
Definition set_motor4 (t : Q) (hw : Hardware) : Hardware :=
  mkHardware (motor1 hw) (motor2 hw) (motor3 hw) t (frequency hw).

(** The throttle of the motor addressed by a channel number, when there is
    one (channels are numbered 1..4). *)
Definition throttle (channel : Z) (hw : Hardware) : option Q :=
  if (channel =? 1)%Z then Some (motor1 hw)
  else if (channel =? 2)%Z then Some (motor2 hw)
  else if (channel =? 3)%Z then Some (motor3 hw)
  else if (channel =? 4)%Z then Some (motor4 hw)
  else None.

(** State right after [setup()]: the motors are at rest. *)
Definition after_setup : Hardware := mkHardware 0 0 0 0 FREQ.

(** ** Comparisons on [Q] as Python evaluates them *)

Definition Qgtb (x y : Q) : bool := negb (Qle_bool x y).   (* x > y *)
Definition Qltb (x y : Q) : bool := negb (Qle_bool y x).   (* x < y *)
Definition Qgeb (x y : Q) : bool := Qle_bool y x.          (* x >= y *)

(** ** [map(x, in_min, in_max, out_min, out_max)] *)

Definition map (x in_min in_max out_min out_max : Q) : Q :=
  (x - in_min) / (in_max - in_min) * (out_max - out_min) + out_min.

(** ** [motorStop()] *)

Definition motorStop (hw : Hardware) : Hardware :=
  set_motor4 0 (set_motor3 0 (set_motor2 0 (set_motor1 0 hw))).

(** ** [Motor(channel, direction, motor_speed)] *)

(** The clamp at the head of [Motor]. *)
Definition clamp_speed (motor_speed : Q) : Q :=
  if Qgtb motor_speed 100 then 100
  else if Qltb motor_speed 0 then 0
  else motor_speed.

(** The value bound to the local [speed] when the channel is written. *)
Definition Motor_speed (direction : Z) (motor_speed : Q) : Q :=
  let speed := map (clamp_speed motor_speed) 0 100 0 1 in
  if (direction =? -1)%Z then - speed else speed.

Definition Motor (channel direction : Z) (motor_speed : Q) (hw : Hardware)
  : Hardware :=
  let speed := Motor_speed direction motor_speed in
  let hw := set_frequency FREQ hw in
  if (channel =? 1)%Z then set_motor1 speed hw
  else if (channel =? 2)%Z then set_motor2 speed hw
  else if (channel =? 3)%Z then set_motor3 speed hw
  else if (channel =? 4)%Z then set_motor4 speed hw
  else hw.

(** ** The three movement modes

    [speed] is the integer percentage of the callers, [turn] the string
    they pass, [radius] a float. *)

Definition move (speed direction : Z) (turn : string) (radius : Q)
  (hw : Hardware) : Hardware :=
  if (speed =? 0)%Z then motorStop hw
  else if (direction =? 1)%Z then
    if String.eqb turn "left" then
      Motor 2 M2_Direction (inject_Z speed)
        (Motor 1 (- M1_Direction) (inject_Z speed) hw)
    else if String.eqb turn "right" then
      Motor 2 (- M2_Direction) (inject_Z speed)
        (Motor 1 M1_Direction (inject_Z speed) hw)
    else
      Motor 2 M2_Direction (inject_Z speed)
        (Motor 1 M1_Direction (inject_Z speed) hw)
  else if (direction =? -1)%Z then
    Motor 2 (- M2_Direction) (inject_Z speed)
      (Motor 1 (- M1_Direction) (inject_Z speed) hw)
  else hw.

Definition trackingMove (speed direction : Z) (turn : string) (radius : Q)
  (hw : Hardware) : Hardware :=
  if (speed =? 0)%Z then motorStop hw
  else if (direction =? 1)%Z then
    if String.eqb turn "left" then
      Motor 2 0 (inject_Z (speed + TL_RIGHT_Offset))
        (Motor 1 (- M1_Direction) (inject_Z (speed + TL_LEFT_Offset)) hw)
    else if String.eqb turn "right" then
      Motor 2 (- M2_Direction) (inject_Z (speed + TL_RIGHT_Offset))
        (Motor 1 0 (inject_Z speed) hw)
    else
      Motor 2 M2_Direction (inject_Z (speed + TL_RIGHT_Offset))
        (Motor 1 M1_Direction (inject_Z (speed + TL_LEFT_Offset)) hw)
  else if (direction =? -1)%Z then
    Motor 2 (- M2_Direction) (inject_Z (speed + TL_RIGHT_Offset))
      (Motor 1 (- M1_Direction) (inject_Z (speed + TL_LEFT_Offset)) hw)
  else hw.

Definition video_Tracking_Move (speed direction : Z) (turn : string)
  (radius : Q) (hw : Hardware) : Hardware :=
  if (speed =? 0)%Z then motorStop hw
  else if (direction =? 1)%Z then
    if String.eqb turn "left" then
      Motor 2 M2_Direction (inject_Z speed * radius)
        (Motor 1 (- M1_Direction) (inject_Z speed) hw)
    else if String.eqb turn "right" then
      Motor 2 (- M2_Direction) (inject_Z speed)
        (Motor 1 M1_Direction (inject_Z speed * radius) hw)
    else
      Motor 2 M2_Direction (inject_Z speed)
        (Motor 1 M1_Direction (inject_Z speed) hw)
  else if (direction =? -1)%Z then
    Motor 2 (- M2_Direction) (inject_Z speed)
      (Motor 1 (- M1_Direction) (inject_Z speed) hw)
  else hw.

(** ** Range of a throttle and of a whole hardware state *)

Definition in_range (t : Q) : Prop := -1 <= t <= 1.

Definition all_in_range (hw : Hardware) : Prop :=
  in_range (motor1 hw) /\ in_range (motor2 hw) /\
  in_range (motor3 hw) /\ in_range (motor4 hw).

End Move.

(* ====================================================================== *)
(** * Part II: [web/ultrasonic_monitor.py]                                *)
(* ====================================================================== *)

Module Monitor.

(** ** Exceptions, outcomes and observable events *)

(** The [Exception] subclasses that can be raised inside the module. *)
Inductive exn : Type :=
| SensorReadError      (* raised by ultra.checkdist() *)
| CallbackError        (* raised by the registered callback *)
| ZeroDivisionError    (* 1.0 / 0 *)
| ValueError           (* time.sleep of a negative length *)
| RuntimeError.        (* Thread.start() on a thread already started *)

Inductive outcome (A : Type) : Type :=
| Ret (a : A)
| Raise (e : exn).
Arguments Ret {A} a.
Arguments Raise {A} e.

(** The dict built in [run]. *)
Record SensorData : Type := mkSensorData {
  type : string;
  distance : Q;
  timestamp : Q
}.

Definition Callback : Type := SensorData -> outcome unit.

Inductive event : Type :=
| UltraCheckdist                         (* ultra.checkdist() was called *)
| Printed (msg : string) (e : exn)    (* print(f"<msg>: {e}") *)
| Sleep (seconds : Q)               (* time.sleep(seconds) *)
| Called (data : SensorData)        (* self.callback(data) was called *)
| Launch.                           (* Thread.start() spawned run() *)

(** ** The object *)

(** Life cycle of the underlying [threading.Thread]: [start()] is legal
    only in [Initial]. *)
Inductive thread_state : Type := Initial | Alive | Finished.

Record UltrasonicMonitor : Type := mkMonitor {
  running : bool;
  continuous : bool;
  update_rate : Q;
  last_distance : Q;
  callback : option Callback;
  _stop_event : bool;            (* self._stop_event.is_set() *)
  thread : thread_state
}.

Definition set_running (b : bool) (s : UltrasonicMonitor) :=
  mkMonitor b (continuous s) (update_rate s) (last_distance s) (callback s)
            (_stop_event s) (thread s).
Definition set_continuous (b : bool) (s : UltrasonicMonitor) :=
  mkMonitor (running s) b (update_rate s) (last_distance s) (callback s)
            (_stop_event s) (thread s).
Definition set_update_rate (r : Q) (s : UltrasonicMonitor) :=
  mkMonitor (running s) (continuous s) r (last_distance s) (callback s)
            (_stop_event s) (thread s).
Definition set_last_distance (d : Q) (s : UltrasonicMonitor) :=
  mkMonitor (running s) (continuous s) (update_rate s) d (callback s)
            (_stop_event s) (thread s).
Definition set_callback_field (c : option Callback) (s : UltrasonicMonitor) :=
  mkMonitor (running s) (continuous s) (update_rate s) (last_distance s) c
            (_stop_event s) (thread s).
Definition set_stop_event (b : bool) (s : UltrasonicMonitor) :=
  mkMonitor (running s) (continuous s) (update_rate s) (last_distance s)
            (callback s) b (thread s).
Definition set_thread (t : thread_state) (s : UltrasonicMonitor) :=
  mkMonitor (running s) (continuous s) (update_rate s) (last_distance s)
            (callback s) (_stop_event s) t.

(** ** A state, exception and trace monad for the methods *)

Definition M (A : Type) : Type :=
  UltrasonicMonitor -> outcome A * UltrasonicMonitor * list event.

Definition ret {A} (a : A) : M A := fun s => (Ret a, s, []).

Definition raise {A} (e : exn) : M A := fun s => (Raise e, s, []).

Definition bind {A B} (m : M A) (k : A -> M B) : M B :=
  fun s =>
    match m s with
    | (Ret a, s1, t1) => let '(r, s2, t2) := k a s1 in (r, s2, t1 ++ t2)
    | (Raise e, s1, t1) => (Raise e, s1, t1)
    end.

(** [try: body except Exception as e: handler e] *)
Definition try_except {A} (body : M A) (handler : exn -> M A) : M A :=
  fun s =>
    match body s with
    | (Ret a, s1, t1) => (Ret a, s1, t1)
    | (Raise e, s1, t1) => let '(r, s2, t2) := handler e s1 in (r, s2, t1 ++ t2)
    end.

Definition get : M UltrasonicMonitor := fun s => (Ret s, s, []).
Definition modify (f : UltrasonicMonitor -> UltrasonicMonitor) : M unit :=
  fun s => (Ret tt, f s, []).
Definition emit (e : event) : M unit := fun s => (Ret tt, s, [e]).

Notation "x <- m ;; k" := (bind m (fun x => k))
  (at level 61, m at next level, right associativity).
Notation "m ;; k" := (bind m (fun _ => k))
  (at level 61, right associativity).

(** The three projections of a finished computation. *)
Definition result {A} (r : outcome A * UltrasonicMonitor * list event) :=
  fst (fst r).
Definition state {A} (r : outcome A * UltrasonicMonitor * list event) :=
  snd (fst r).
Definition trace {A} (r : outcome A * UltrasonicMonitor * list event) :=
  snd r.

(** ** Library calls *)

(** [ultra.checkdist()]: the sensor either returns a distance or raises;
    which of the two happens at a given call is a parameter. *)
Definition ultra_checkdist (reading : outcome Q) : M Q :=
  fun s => (reading, s, [UltraCheckdist]).

Definition print (msg : string) (e : exn) : M unit := emit (Printed msg e).

(** [time.sleep(t)] raises [ValueError] on a negative length. *)
Definition time_sleep (t : Q) : M unit :=
  if Move.Qltb t 0 then raise ValueError else emit (Sleep t).

(** [1.0 / d] *)
Definition divide (n d : Q) : M Q :=
  if Qeq_bool d 0 then raise ZeroDivisionError else ret (n / d).

(** [round(number, ndigits)]: nearest multiple of [10^-ndigits], ties to
    the even one. *)
Definition round_half_even (x : Q) : Z :=
  let f := Qfloor x in
  let r := x - inject_Z f in
  if Move.Qltb r (1#2) then f
  else if Move.Qgtb r (1#2) then (f + 1)%Z
  else if Z.even f then f else (f + 1)%Z.

Definition round (number : Q) (ndigits : Z) : Q :=
  let p := Qpower 10 ndigits in
  inject_Z (round_half_even (number * p)) / p.

(** [Thread.start()]: spawns [run] once; a second call raises. *)
Definition Thread_start : M unit :=
  s <- get ;;
  match thread s with
  | Initial => modify (set_thread Alive) ;; emit Launch
  | Alive | Finished => raise RuntimeError
  end.

(** ** Methods of [UltrasonicMonitor] *)

Definition __init__ : UltrasonicMonitor :=
  mkMonitor false false 10 0 None false Initial.

Definition set_callback (cb : option Callback) : M unit :=
  modify (set_callback_field cb).

Definition start_continuous (rate : Q) : M unit :=
  modify (set_update_rate rate) ;;
  modify (set_continuous true) ;;
  self <- get ;;
  if negb (running self) then
    modify (set_running true) ;;
    Thread_start
  else ret tt.

Definition stop_continuous : M unit := modify (set_continuous false).

Definition get_single_reading (reading : outcome Q) : M Q :=
  try_except
    (distance <- ultra_checkdist reading ;;
     modify (set_last_distance distance) ;;
     ret distance)
    (fun e =>
     print "Sensor reading error" e ;;
     ret (-1)).

(** The [while] condition of [run]. *)
Definition run_condition (self : UltrasonicMonitor) : bool :=
  running self && negb (_stop_event self).

(** The body of the [while] loop of [run]; [reading] is what the sensor
    does if it is asked, [now] what [time.time()] returns if it is asked. *)
Definition run_body (reading : outcome Q) (now : Q) : M unit :=
  self <- get ;;
  if continuous self then
    try_except
      (distance <- get_single_reading reading ;;
       self <- get ;;
       match callback self with
       | Some cb =>
           if Move.Qgeb distance 0 then
             let sensor_data := mkSensorData "ultrasonic" (round distance 2) now in
             fun s => (cb sensor_data, s, [Called sensor_data])
           else ret tt
       | None => ret tt
       end ;;
       self <- get ;;
       sleep_time <- divide 1 (update_rate self) ;;
       time_sleep sleep_time)
      (fun e =>
       print "Ultrasonic monitor error" e ;;
       time_sleep 1)
  else
    time_sleep (1 # 10).

Definition stop : M unit :=
  modify (set_running false) ;;
  modify (set_continuous false) ;;
  modify (set_stop_event true).

(** ** The monitor and its owner, interleaved

    The thread spawned by [start()] runs [run] while the owner of the
    object goes on calling its methods.  An execution is a list of actions,
    each either one turn of the [while] loop of [run] (the condition is
    evaluated and, when it holds, the body runs once) or one method call of
    the owner.  A loop turn is atomic: the owner's calls take effect
    between two turns. *)

Inductive action : Type :=
| Tick (reading : outcome Q) (now : Q)
| Call_set_callback (cb : option Callback)
| Call_start_continuous (rate : Q)
| Call_stop_continuous
| Call_get_single_reading (reading : outcome Q)
| Call_stop.

Inductive actor : Type := Task | Owner.

Definition done_by (a : actor) (t : list event) : list (actor * event) :=
  List.map (fun e => (a, e)) t.

(** One turn of [run] in the spawned thread. *)
Definition run_turn (reading : outcome Q) (now : Q) (self : UltrasonicMonitor)
  : UltrasonicMonitor * list event :=
  match thread self with
  | Alive =>
      if run_condition self then
        let r := run_body reading now self in (state r, trace r)
      else (set_thread Finished self, [])
  | Initial | Finished => (self, [])
  end.

(** A method call of the owner; an exception it raises goes to the owner
    and leaves the object as the method left it. *)
Definition call {A} (m : M A) (self : UltrasonicMonitor)
  : UltrasonicMonitor * list event :=
  let r := m self in (state r, trace r).

Definition step (a : action) (self : UltrasonicMonitor)
  : UltrasonicMonitor * list (actor * event) :=
  match a with
  | Tick reading now =>
      let '(s, t) := run_turn reading now self in (s, done_by Task t)
  | Call_set_callback cb =>
      let '(s, t) := call (set_callback cb) self in (s, done_by Owner t)
  | Call_start_continuous rate =>
      let '(s, t) := call (start_continuous rate) self in (s, done_by Owner t)
  | Call_stop_continuous =>
      let '(s, t) := call stop_continuous self in (s, done_by Owner t)
  | Call_get_single_reading reading =>
      let '(s, t) := call (get_single_reading reading) self in (s, done_by Owner t)
  | Call_stop =>
      let '(s, t) := call stop self in (s, done_by Owner t)
  end.

Fixpoint exec (acts : list action) (self : UltrasonicMonitor)
  : UltrasonicMonitor * list (actor * event) :=
  match acts with
  | [] => (self, [])
  | a :: rest =>
      let '(s1, t1) := step a self in
      let '(s2, t2) := exec rest s1 in
      (s2, t1 ++ t2)
  end.

(** ** Reading a trace *)

Definition is_task (x : actor * event) : bool :=
  match fst x with Task => true | Owner => false end.

(** What the spawned thread did. *)
Definition task_events (t : list (actor * event)) : list event :=
  List.map snd (List.filter is_task t).

Definition is_launch (e : event) : bool :=
  match e with Launch => true | _ => false end.
Definition is_checkdist (e : event) : bool :=
  match e with UltraCheckdist => true | _ => false end.

(** Number of threads spawned. *)
Definition launches (t : list event) : nat :=
  List.length (List.filter is_launch t).

(** Number of sensor reads. *)
Definition reads (t : list event) : nat :=
  List.length (List.filter is_checkdist t).

(** The dicts handed to the callback, in order. *)
Fixpoint delivered (t : list event) : list SensorData :=
  match t with
  | [] => []
  | Called d :: rest => d :: delivered rest
  | _ :: rest => delivered rest
  end.

(** Total time spent in [time.sleep]. *)
Fixpoint slept (t : list event) : Q :=
  match t with
  | [] => 0
  | Sleep x :: rest => x + slept rest
  | _ :: rest => slept rest
  end.

(** The messages printed, in order. *)
Fixpoint printed (t : list event) : list string :=
  match t with
  | [] => []
  | Printed msg _ :: rest => msg :: printed rest
  | _ :: rest => printed rest
  end.

(** The successful sensor values among the loop turns of an execution. *)
Fixpoint task_readings (acts : list action) : list Q :=
  match acts with
  | [] => []
  | Tick (Ret d) _ :: rest => d :: task_readings rest
  | _ :: rest => task_readings rest
  end.

(** Executions in which the owner never calls [stop()]. *)
Definition is_stop (a : action) : bool :=
  match a with Call_stop => true | _ => false end.

(** ** Module-level helper of the global instance *)

(** [start_ultrasonic_monitor(callback)], run on the global
    [ultrasonic_monitor]: it calls [Thread.start()] directly and does not
    set [running]. *)
Definition start_ultrasonic_monitor (callback : option Callback) : M unit :=
  match callback with
  | Some _ => set_callback callback
  | None => ret tt
  end ;;
  self <- get ;;
  if negb (running self) then Thread_start else ret tt.

(** ** More ways of reading an execution *)

(** The lengths of the calls of [time.sleep], in order. *)
Fixpoint sleeps (t : list event) : list Q :=
  match t with
  | [] => []
  | Sleep x :: rest => x :: sleeps rest
  | _ :: rest => sleeps rest
  end.

(** Number of loop turns offered to the thread. *)
Fixpoint ticks (acts : list action) : nat :=
  match acts with
  | [] => 0%nat
  | Tick _ _ :: rest => S (ticks rest)
  | _ :: rest => ticks rest
  end.

(** Actions after which a sampling monitor with a callback is still a
    sampling monitor with a callback. *)
Definition keeps_sampling (a : action) : bool :=
  match a with
  | Tick _ _ => true
  | Call_set_callback (Some _) => true
  | Call_set_callback None => false
  | Call_start_continuous _ => true
  | Call_stop_continuous => false
  | Call_get_single_reading _ => true
  | Call_stop => false
  end.

(** The dicts that the loop turns of an execution would hand over if
    every turn sampled: one per sensor value that is [>= 0]. *)
Fixpoint expected_deliveries (acts : list action) : list SensorData :=
  match acts with
  | [] => []
  | Tick (Ret d) now :: rest =>
      if Move.Qgeb d 0
      then mkSensorData "ultrasonic" (round d 2) now :: expected_deliveries rest
      else expected_deliveries rest
  | _ :: rest => expected_deliveries rest
  end.

(** The last sensor value obtained in an execution in which every turn
    samples, [d0] if there is none. *)
Fixpoint last_good (acts : list action) (d0 : Q) : Q :=
  match acts with
  | [] => d0
  | Tick (Ret d) _ :: rest => last_good rest d
  | Call_get_single_reading (Ret d) :: rest => last_good rest d
  | _ :: rest => last_good rest d0
  end.

(** A monitor whose thread is in its loop, sampling, with a callback. *)
Definition sampling (self : UltrasonicMonitor) : Prop :=
  thread self = Alive /\ running self = true /\ _stop_event self = false /\
  continuous self = true /\ callback self <> None.

End Monitor.

(* ====================================================================== *)
(** * Part II-b: [web/battery_monitor.py]                                 *)
(* ====================================================================== *)

Module Battery.

(** The object: of [i2c], [adc] and [chan0] only their being bound
    matters, which [initialized] records. *)
Record BatteryMonitor : Type := mkBattery {
  initialized : bool;
  last_voltage : Q
}.

(** [read_voltage]: [value] is what [self.chan0.value] does if it is
    evaluated, a 16-bit integer or an exception.  The result is the value
    returned, the object afterwards and the messages printed. *)
Definition read_voltage (value : Monitor.outcome Z) (self : BatteryMonitor)
  : Q * BatteryMonitor * list string :=
  if negb (initialized self) then (last_voltage self, self, [])
  else
    match value with
    | Monitor.Ret v =>
        let voltage := inject_Z v / 65535 * (84 # 10) in
        (voltage, mkBattery (initialized self) voltage, [])
    | Monitor.Raise e =>
        (last_voltage self, self, ["Error reading battery voltage"%string])
    end.

(** [get_battery_percentage(voltage)]; the one-argument [round] returns
    the nearest integer, ties to even. *)
Definition get_battery_percentage (voltage : Q) : Z :=
  if Move.Qgeb voltage (84 # 10) then 100%Z
  else if Qle_bool voltage 6 then 0%Z
  else Monitor.round_half_even (((voltage - 6) / ((84 # 10) - 6)) * 100).

Definition get_status_text (percentage : Z) : string :=
  if (percentage >? 75)%Z then "Good"
  else if (percentage >? 50)%Z then "Fair"
  else if (percentage >? 25)%Z then "Low"
  else if (percentage >? 10)%Z then "Very Low"
  else "Critical".

(** The dict returned by [get_battery_status]. *)
Record BatteryStatus : Type := mkStatus {
  voltage : Q;
  percentage : Z;
  status : string;
  status_initialized : bool
}.

Definition get_battery_status (value : Monitor.outcome Z) (self : BatteryMonitor)
  : BatteryStatus * BatteryMonitor * list string :=
  let '(v, self1, out) := read_voltage value self in
  let p := get_battery_percentage v in
  (mkStatus (Monitor.round v 2) p (get_status_text p) (initialized self1),
   self1, out).

(** Severity of a status text, for comparing two of them. *)
Definition severity (s : string) : Z :=
  if String.eqb s "Good" then 0
  else if String.eqb s "Fair" then 1
  else if String.eqb s "Low" then 2
  else if String.eqb s "Very Low" then 3
  else 4.

End Battery.

(* ====================================================================== *)
(** * Part III: properties of the motor layer                             *)
(* ====================================================================== *)

Section MotorFacts.
Import Move.

Lemma Qgtb_true x y : Qgtb x y = true <-> y < x.
Proof.
  unfold Qgtb. rewrite negb_true_iff, <- not_true_iff_false, Qle_bool_iff.
  split; [apply Qnot_le_lt | apply Qlt_not_le].
Qed.

Lemma Qgtb_false x y : Qgtb x y = false <-> x <= y.
Proof.
  unfold Qgtb. rewrite negb_false_iff. apply Qle_bool_iff.
Qed.

Lemma Qltb_true x y : Qltb x y = true <-> x < y.
Proof. apply Qgtb_true. Qed.

Lemma Qltb_false x y : Qltb x y = false <-> y <= x.
Proof. apply Qgtb_false. Qed.

Lemma Qgeb_true x y : Qgeb x y = true <-> y <= x.
Proof. apply Qle_bool_iff. Qed.

(** The clamp lands in [0,100] whatever it is given. *)
Lemma clamp_speed_bounds motor_speed :
  0 <= clamp_speed motor_speed <= 100.
Proof.
  unfold clamp_speed.
  destruct (Qgtb motor_speed 100) eqn:Hhi.
  - split; lra.
  - apply Qgtb_false in Hhi.
    destruct (Qltb motor_speed 0) eqn:Hlo.
    + split; lra.
    + apply Qltb_false in Hlo. split; assumption.
Qed.

(** Inside [0,100] the clamp is the identity. *)
Lemma clamp_speed_id motor_speed :
  0 <= motor_speed <= 100 -> clamp_speed motor_speed = motor_speed.
Proof.
  intros [Hlo Hhi]. unfold clamp_speed.
  apply Qgtb_false in Hhi. rewrite Hhi.
  apply Qltb_false in Hlo. now rewrite Hlo.
Qed.

(** [map(x, 0, 100, 0, 1.0)] is [x / 100]. *)
Lemma map_percent x : map x 0 100 0 1 == x / 100.
Proof. unfold map. field. Qed.

Lemma Motor_speed_in_range direction motor_speed :
  in_range (Motor_speed direction motor_speed).
Proof.
  unfold in_range, Motor_speed.
  pose proof (clamp_speed_bounds motor_speed) as [Hlo Hhi].
  pose proof (map_percent (clamp_speed motor_speed)) as Hm.
  assert (Hq : clamp_speed motor_speed / 100 ==
               clamp_speed motor_speed * (1 # 100)) by (field).
  destruct (direction =? -1)%Z; rewrite Hm, Hq; split; lra.
Qed.

(** Which attribute a call of [Motor] writes. *)
Lemma throttle_Motor channel direction motor_speed hw :
  (1 <= channel <= 4)%Z ->
  throttle channel (Motor channel direction motor_speed hw)
  = Some (Motor_speed direction motor_speed).
Proof.
  intros H.
  assert (Hc : channel = 1%Z \/ channel = 2%Z \/ channel = 3%Z \/ channel = 4%Z)
    by lia.
  destruct Hc as [-> | [-> | [-> | ->]]]; reflexivity.
Qed.

(** A call of [Motor] keeps every motor in range. *)
Lemma Motor_all_in_range channel direction motor_speed hw :
  all_in_range hw -> all_in_range (Motor channel direction motor_speed hw).
Proof.
  intros (H1 & H2 & H3 & H4).
  pose proof (Motor_speed_in_range direction motor_speed) as Hs.
  unfold Motor, all_in_range.
  destruct (channel =? 1)%Z; [cbn; tauto |].
  destruct (channel =? 2)%Z; [cbn; tauto |].
  destruct (channel =? 3)%Z; [cbn; tauto |].
  destruct (channel =? 4)%Z; cbn; tauto.
Qed.

Lemma motorStop_all_in_range hw : all_in_range (motorStop hw).
Proof. unfold all_in_range, in_range; cbn; repeat split; lra. Qed.

(** The three movement modes keep every motor in range, for every speed,
    direction, turn and radius. *)
Lemma modes_all_in_range speed direction turn radius hw :
  all_in_range hw ->
  all_in_range (move speed direction turn radius hw) /\
  all_in_range (trackingMove speed direction turn radius hw) /\
  all_in_range (video_Tracking_Move speed direction turn radius hw).
Proof.
  intros H. unfold move, trackingMove, video_Tracking_Move.
  destruct (speed =? 0)%Z; [auto using motorStop_all_in_range |].
  destruct (direction =? 1)%Z.
  - destruct (String.eqb turn "left");
      [| destruct (String.eqb turn "right")];
      auto 6 using Motor_all_in_range.
  - destruct (direction =? -1)%Z; auto 6 using Motor_all_in_range.
Qed.

(** The throttle that [Motor] computes for an integer percentage. *)
Lemma Motor_speed_percent direction (speed : Z) :
  (0 <= speed <= 100)%Z ->
  Motor_speed direction (inject_Z speed) ==
  if (direction =? -1)%Z then - (inject_Z speed / 100) else inject_Z speed / 100.
Proof.
  intros [Hlo Hhi]. unfold Motor_speed.
  rewrite clamp_speed_id.
  - destruct (direction =? -1)%Z; rewrite map_percent; reflexivity.
  - split.
    + change 0 with (inject_Z 0). rewrite <- Zle_Qle. exact Hlo.
    + change 100 with (inject_Z 100). rewrite <- Zle_Qle. exact Hhi.
Qed.

End MotorFacts.

Section MotorClaims.
Import Move.

(** C1.  Whatever the channel (1..4), the direction and the speed handed
    to [Motor] (an integer or a product such as [speed * radius], inside or
    outside [0,100]), the throttle it writes to the addressed motor is the
    clamped, scaled and signed speed, and it lies in [-1, 1]. *)
Theorem Motor_throttle_in_range :
  forall (channel direction : Z) (motor_speed : Q) (hw : Hardware),
    (1 <= channel <= 4)%Z ->
    exists t,
      throttle channel (Motor channel direction motor_speed hw) = Some t /\
      t = Motor_speed direction motor_speed /\
      -1 <= t <= 1.
Proof.
  intros channel direction motor_speed hw H.
  exists (Motor_speed direction motor_speed).
  split; [now apply throttle_Motor | split; [reflexivity |]].
  apply Motor_speed_in_range.
Qed.

Lemma Motor_throttle_in_range_witness :
  (1 <= 2 <= 4)%Z /\
  exists t,
    throttle 2 (Motor 2 0 (inject_Z (250 + TL_LEFT_Offset)) after_setup)
      = Some t /\
    t = Motor_speed 0 (inject_Z (250 + TL_LEFT_Offset)) /\
    -1 <= t <= 1.
Proof.
  split; [lia |].
  apply (Motor_throttle_in_range 2 0 (inject_Z (250 + TL_LEFT_Offset))
           after_setup).
  lia.
Defined.

(** C2.  [trackingMove(50, 1, 'mid')] writes 0.60 to motor 1, the right
    motor, and 0.50 to motor 2, the left motor: [TL_LEFT_Offset] is added
    on channel 1 and [TL_RIGHT_Offset] on channel 2. *)
Theorem trackingMove_straight_offsets :
  forall (radius : Q) (hw : Hardware),
    motor1 (trackingMove 50 1 "mid" radius hw) == 60 # 100 /\
    motor2 (trackingMove 50 1 "mid" radius hw) == 50 # 100 /\
    ~ motor2 (trackingMove 50 1 "mid" radius hw) == 60 # 100 /\
    ~ motor1 (trackingMove 50 1 "mid" radius hw) == 50 # 100.
Proof.
  intros radius hw. cbn.
  repeat split; try reflexivity; intros H; discriminate H.
Qed.

(** C3.  For every speed > 0, [trackingMove(speed, 1, 'left')] leaves
    motor 2, the inside (left) motor, at a strictly positive throttle, and
    [trackingMove(speed, 1, 'right')] leaves motor 1, the inside (right)
    motor, at a strictly positive throttle: [Motor(channel, 0, speed)]
    drives the motor forward, it does not stop it. *)
Theorem trackingMove_turn_inside_not_stopped :
  forall (speed : Z) (radius : Q) (hw : Hardware),
    (0 < speed)%Z ->
    0 < motor2 (trackingMove speed 1 "left" radius hw) /\
    0 < motor1 (trackingMove speed 1 "right" radius hw).
Proof.
  intros speed radius hw Hpos.
  unfold trackingMove.
  replace (speed =? 0)%Z with false by (symmetry; apply Z.eqb_neq; lia).
  cbn -[Motor_speed].
  assert (Hq : 0 < inject_Z speed).
  { change 0 with (inject_Z 0). rewrite <- Zlt_Qlt. exact Hpos. }
  assert (Hgen : forall x : Q, 0 < x -> 0 < Motor_speed 0 x).
  { intros x Hx. unfold Motor_speed. cbn [Z.eqb].
    rewrite map_percent.
    assert (Hc : 0 < clamp_speed x).
    { unfold clamp_speed.
      destruct (Qgtb x 100); [lra |].
      destruct (Qltb x 0) eqn:Hlt; [| exact Hx].
      apply Qltb_true in Hlt. lra. }
    assert (He : clamp_speed x / 100 == clamp_speed x * (1 # 100)) by field.
    rewrite He. lra. }
  split; apply Hgen.
  - unfold TL_RIGHT_Offset. rewrite Z.add_0_r. exact Hq.
  - exact Hq.
Qed.

Lemma trackingMove_turn_inside_not_stopped_witness :
  (0 < 50)%Z /\
  0 < motor2 (trackingMove 50 1 "left" (6 # 10) after_setup) /\
  0 < motor1 (trackingMove 50 1 "right" (6 # 10) after_setup).
Proof.
  split; [lia |].
  apply (trackingMove_turn_inside_not_stopped 50 (6 # 10) after_setup).
  lia.
Defined.

(** The throttles at the input of the specification's example. *)
Example trackingMove_left_50 :
  motor1 (trackingMove 50 1 "left" (6 # 10) after_setup) == - (60 # 100) /\
  motor2 (trackingMove 50 1 "left" (6 # 10) after_setup) == 50 # 100.
Proof. split; reflexivity. Qed.

Example trackingMove_right_50 :
  motor1 (trackingMove 50 1 "right" (6 # 10) after_setup) == 50 # 100 /\
  motor2 (trackingMove 50 1 "right" (6 # 10) after_setup) == - (50 # 100).
Proof. split; reflexivity. Qed.

(** C4.  For every speed in (0,100], [video_Tracking_Move(speed, 1,
    'left', 1.0)] writes what [move(speed, 1, 'left')] writes: motor 2 at
    [speed/100] as in the straight move, but motor 1 at [-speed/100], the
    opposite of the straight move; ['right'] is the mirror image. *)
Theorem video_Tracking_Move_radius_one :
  forall (speed : Z) (hw : Hardware),
    (0 < speed <= 100)%Z ->
    let v := video_Tracking_Move speed 1 "left" 1 hw in
    let w := video_Tracking_Move speed 1 "right" 1 hw in
    let m := move speed 1 "mid" (6 # 10) hw in
    motor1 m == inject_Z speed / 100 /\
    motor2 m == inject_Z speed / 100 /\
    motor1 v == - (inject_Z speed / 100) /\
    motor2 v == inject_Z speed / 100 /\
    motor1 w == inject_Z speed / 100 /\
    motor2 w == - (inject_Z speed / 100) /\
    ~ motor1 v == motor1 m /\
    ~ motor2 w == motor2 m.
Proof.
  intros speed hw [Hpos Hle].
  unfold video_Tracking_Move, move.
  replace (speed =? 0)%Z with false by (symmetry; apply Z.eqb_neq; lia).
  cbn -[Motor_speed].
  assert (Hone : inject_Z speed * 1 == inject_Z speed) by ring.
  assert (Hq : 0 < inject_Z speed).
  { change 0 with (inject_Z 0). rewrite <- Zlt_Qlt. exact Hpos. }
  assert (Hdiv : inject_Z speed / 100 == inject_Z speed * (1 # 100)) by field.
  pose proof (Motor_speed_percent 1 speed (conj (Z.lt_le_incl _ _ Hpos) Hle))
    as Hf.
  pose proof (Motor_speed_percent (-1) speed (conj (Z.lt_le_incl _ _ Hpos) Hle))
    as Hb.
  cbn [Z.eqb Z.opp Pos.eqb] in Hf, Hb.
  assert (Hf1 : Motor_speed 1 (inject_Z speed * 1) == inject_Z speed / 100).
  { unfold Motor_speed. cbn [Z.eqb].
    rewrite map_percent.
    assert (Hc : clamp_speed (inject_Z speed * 1) == inject_Z speed).
    { unfold clamp_speed.
      destruct (Qgtb (inject_Z speed * 1) 100) eqn:Hhi.
      - apply Qgtb_true in Hhi. rewrite Hone in Hhi.
        assert (inject_Z speed <= 100).
        { change 100 with (inject_Z 100). rewrite <- Zle_Qle. exact Hle. }
        lra.
      - destruct (Qltb (inject_Z speed * 1) 0) eqn:Hlo.
        + apply Qltb_true in Hlo. lra.
        + exact Hone. }
    rewrite Hc. reflexivity. }
  repeat split; try assumption.
  - rewrite Hb, Hf, Hdiv. lra.
  - rewrite Hb, Hf, Hdiv. lra.
Qed.

Lemma video_Tracking_Move_radius_one_witness :
  (0 < 50 <= 100)%Z /\
  motor1 (video_Tracking_Move 50 1 "left" 1 after_setup) == - (inject_Z 50 / 100) /\
  motor1 (move 50 1 "mid" (6 # 10) after_setup) == inject_Z 50 / 100.
Proof.
  split; [lia |].
  pose proof (video_Tracking_Move_radius_one 50 after_setup
                ltac:(lia)) as H.
  cbv zeta in H.
  destruct H as (Hm1 & _ & Hv1 & _).
  split; [exact Hv1 | exact Hm1].
Defined.

(** With radius 1.0 the vision turn is the tank turn of [move]. *)
Lemma video_Tracking_Move_radius_one_is_tank_turn :
  forall (speed : Z) (turn : string) (hw : Hardware),
    (0 <= speed <= 100)%Z ->
    let v := video_Tracking_Move speed 1 turn 1 hw in
    let m := move speed 1 turn (6 # 10) hw in
    motor1 v == motor1 m /\ motor2 v == motor2 m /\
    motor3 v == motor3 m /\ motor4 v == motor4 m.
Proof.
  intros speed turn hw Hs.
  assert (Hsame : forall d, Motor_speed d (inject_Z speed * 1)
                            == Motor_speed d (inject_Z speed)).
  { intros d. unfold Motor_speed.
    assert (Hc : clamp_speed (inject_Z speed * 1) == clamp_speed (inject_Z speed)).
    { assert (Hone : inject_Z speed * 1 == inject_Z speed) by ring.
      unfold clamp_speed.
      destruct (Qgtb (inject_Z speed * 1) 100) eqn:H1;
      destruct (Qgtb (inject_Z speed) 100) eqn:H2;
      try reflexivity;
      try (apply Qgtb_true in H1; apply Qgtb_false in H2; lra);
      try (apply Qgtb_false in H1; apply Qgtb_true in H2; lra).
      destruct (Qltb (inject_Z speed * 1) 0) eqn:H3;
      destruct (Qltb (inject_Z speed) 0) eqn:H4;
      try reflexivity; try exact Hone;
      try (apply Qltb_true in H3; apply Qltb_false in H4; lra);
      try (apply Qltb_false in H3; apply Qltb_true in H4; lra). }
    destruct (d =? -1)%Z; rewrite !map_percent, Hc; reflexivity. }
  unfold video_Tracking_Move, move.
  destruct (speed =? 0)%Z; [cbn; repeat split; reflexivity |].
  cbn -[Motor_speed].
  destruct (String.eqb turn "left");
    [| destruct (String.eqb turn "right")];
    cbn -[Motor_speed]; repeat split; try reflexivity; apply Hsame.
Qed.

End MotorClaims.

(* ====================================================================== *)
(** * Part IV: properties of the ultrasonic monitor                       *)
(* ====================================================================== *)

Section RoundFacts.
Import Move Monitor.

Lemma round_half_even_near x :
  x - (1 # 2) <= inject_Z (round_half_even x) <= x + (1 # 2).
Proof.
  pose proof (Qfloor_le x) as Hlo.
  pose proof (Qlt_floor x) as Hhi.
  rewrite inject_Z_plus in Hhi. change (inject_Z 1) with 1 in Hhi.
  unfold round_half_even.
  destruct (Qltb (x - inject_Z (Qfloor x)) (1 # 2)) eqn:Hlt.
  - apply Qltb_true in Hlt. split; lra.
  - apply Qltb_false in Hlt.
    destruct (Qgtb (x - inject_Z (Qfloor x)) (1 # 2)) eqn:Hgt.
    + rewrite inject_Z_plus. change (inject_Z 1) with 1. split; lra.
    + apply Qgtb_false in Hgt.
      destruct (Z.even (Qfloor x)).
      * split; lra.
      * rewrite inject_Z_plus. change (inject_Z 1) with 1. split; lra.
Qed.

Lemma round_half_even_nonneg x : 0 <= x -> (0 <= round_half_even x)%Z.
Proof.
  intros Hx.
  assert (Hf : (0 <= Qfloor x)%Z).
  { change 0%Z with (Qfloor 0). now apply Qfloor_resp_le. }
  unfold round_half_even.
  destruct (Qltb _ _); [exact Hf |].
  destruct (Qgtb _ _); [lia |].
  destruct (Z.even _); lia.
Qed.

(** [round(x, 2)] is a whole number of hundredths, at most half a
    hundredth away from [x]. *)
Lemma round_2_spec x :
  (exists n : Z, round x 2 == inject_Z n / 100) /\
  Qabs (round x 2 - x) <= 1 # 200.
Proof.
  unfold round. split.
  - exists (round_half_even (x * Qpower 10 2)).
    change (Qpower 10 2) with 100. reflexivity.
  - pose proof (round_half_even_near (x * Qpower 10 2)) as [Hlo Hhi].
    change (Qpower 10 2) with 100 in *.
    set (n := inject_Z (round_half_even (x * 100))) in *.
    assert (Hd : n / 100 == n * (1 # 100)) by field.
    rewrite Hd. apply Qabs_Qle_condition. split; lra.
Qed.

Lemma round_2_nonneg x : 0 <= x -> 0 <= round x 2.
Proof.
  intros Hx. unfold round.
  change (Qpower 10 2) with 100.
  assert (H100 : 0 <= x * 100) by lra.
  apply round_half_even_nonneg in H100.
  rewrite Zle_Qle in H100. change (inject_Z 0) with 0 in H100.
  set (n := inject_Z (round_half_even (x * 100))) in *.
  assert (Hd : n / 100 == n * (1 # 100)) by field.
  rewrite Hd. lra.
Qed.

(** An integer number of hundredths is left as it is. *)
Example round_examples :
  round (12345 # 1000) 2 == 1234 # 100 /\
  round (12355 # 1000) 2 == 1236 # 100 /\
  round (1 # 8) 2 == 12 # 100 /\
  round (3 # 8) 2 == 38 # 100 /\
  round 25 2 == 25.
Proof. repeat split; reflexivity. Qed.

End RoundFacts.

Section MethodFacts.
Import Move Monitor.

Lemma get_single_reading_ok d self :
  get_single_reading (Ret d) self
  = (Ret d, set_last_distance d self, [UltraCheckdist]).
Proof. reflexivity. Qed.

Lemma get_single_reading_failed e self :
  get_single_reading (Raise e) self
  = (Ret (-1), self, [UltraCheckdist; Printed "Sensor reading error" e]).
Proof. reflexivity. Qed.

Lemma divide_positive n d self :
  0 < d -> divide n d self = (Ret (n / d), self, []).
Proof.
  intros Hd. unfold divide.
  destruct (Qeq_bool d 0) eqn:E; [| reflexivity].
  apply Qeq_bool_iff in E. lra.
Qed.

Lemma time_sleep_nonneg t self :
  0 <= t -> time_sleep t self = (Ret tt, self, [Sleep t]).
Proof.
  intros Ht. unfold time_sleep.
  apply Qltb_false in Ht. now rewrite Ht.
Qed.

Lemma Qinv_rate_pos r : 0 < r -> 0 <= 1 / r.
Proof.
  intros Hr. apply Qlt_le_weak. unfold Qdiv. rewrite Qmult_1_l.
  now apply Qinv_lt_0_compat.
Qed.
Lemma run_body_read_failed e now self :
  continuous self = true ->
  0 < update_rate self ->
  run_body (Raise e) now self
  = (Ret tt, self,
     [UltraCheckdist; Printed "Sensor reading error" e;
      Sleep (1 / update_rate self)]).
Proof.
  intros Hc Hr.
  unfold run_body, try_except, bind, get.
  rewrite Hc, get_single_reading_failed.
  destruct (callback self) as [cb |]; cbn [Qgeb Qle_bool Qnum Qden Z.leb Z.mul Z.compare Z.opp Pos.mul]; unfold ret.
  all: rewrite (divide_positive 1 _ self Hr),
         (time_sleep_nonneg _ self (Qinv_rate_pos _ Hr)); reflexivity.
Qed.

Lemma run_body_idle reading now self :
  continuous self = false ->
  run_body reading now self = (Ret tt, self, [Sleep (1 # 10)]).
Proof.
  intros Hc. unfold run_body, bind, get. rewrite Hc. reflexivity.
Qed.

(** The dicts handed to the callback by one loop turn. *)
Lemma run_body_delivered reading now self :
  delivered (trace (run_body reading now self)) =
  if continuous self then
    match reading, callback self with
    | Ret d, Some _ =>
        if Qgeb d 0 then [mkSensorData "ultrasonic" (round d 2) now] else []
    | _, _ => []
    end
  else [].
Proof.
  destruct self as [rn ct rate ld cbk se th].
  unfold run_body, try_except, bind, get.
  cbn [continuous callback].
  destruct ct; [| reflexivity].
  unfold get_single_reading, try_except, bind, ultra_checkdist, modify,
    divide, time_sleep, raise, ret, print, emit.
  destruct reading as [d | e];
    cbv beta iota zeta delta
      [set_last_distance callback update_rate running continuous
       last_distance _stop_event thread].
  - destruct cbk as [cb |]; [destruct (Qgeb d 0); [destruct (cb _) |] |];
      try reflexivity;
      (destruct (Qeq_bool rate 0); [reflexivity |]);
      cbv beta iota zeta;
      destruct (Qltb (1 / rate) 0); reflexivity.
  - destruct cbk as [cb |];
      [destruct (Qgeb (-1) 0) eqn:E; [discriminate E |] |];
      (destruct (Qeq_bool rate 0); [reflexivity |]);
      cbv beta iota zeta;
      destruct (Qltb (1 / rate) 0); reflexivity.
Qed.

End MethodFacts.

Section ExecutionFacts.
Import Move Monitor.

Lemma exec_cons a rest self :
  exec (a :: rest) self =
  (fst (exec rest (fst (step a self))),
   snd (step a self) ++ snd (exec rest (fst (step a self)))).
Proof.
  cbn [exec]. destruct (step a self) as [s1 t1]. cbn [fst snd].
  destruct (exec rest s1) as [s2 t2]. reflexivity.
Qed.

Lemma task_events_app t1 t2 :
  task_events (t1 ++ t2) = task_events t1 ++ task_events t2.
Proof.
  unfold task_events. now rewrite filter_app, map_app.
Qed.

Lemma task_events_Task t : task_events (done_by Task t) = t.
Proof.
  unfold task_events, done_by.
  induction t as [| e t IH]; [reflexivity |].
  cbn. now rewrite IH.
Qed.

Lemma task_events_Owner t : task_events (done_by Owner t) = [].
Proof.
  unfold task_events, done_by.
  induction t as [| e t IH]; [reflexivity | exact IH].
Qed.

Lemma events_done_by a t : List.map snd (done_by a t) = t.
Proof.
  unfold done_by. rewrite map_map. cbn. apply map_id.
Qed.

Lemma delivered_app t1 t2 :
  delivered (t1 ++ t2) = delivered t1 ++ delivered t2.
Proof.
  induction t1 as [| e t1 IH]; [reflexivity |].
  destruct e; cbn; now rewrite IH.
Qed.

Lemma launches_app t1 t2 :
  launches (t1 ++ t2) = (launches t1 + launches t2)%nat.
Proof.
  unfold launches. now rewrite filter_app, length_app.
Qed.

(** What the task does at an action, and what the owner does. *)
Lemma task_events_step a self :
  task_events (snd (step a self)) =
  match a with
  | Tick reading now => snd (run_turn reading now self)
  | _ => []
  end.
Proof.
  destruct a; cbn [step];
    match goal with
    | |- context [run_turn ?r ?n ?s] => destruct (run_turn r n s)
    | |- context [call ?m ?s] => destruct (call m s)
    end; cbn [snd];
    auto using task_events_Task, task_events_Owner.
Qed.

(** The dicts handed to the callback in one turn of [run]. *)
Lemma run_turn_delivered reading now self data :
  In data (delivered (snd (run_turn reading now self))) ->
  exists x,
    reading = Ret x /\ 0 <= x /\
    data = mkSensorData "ultrasonic" (round x 2) now.
Proof.
  unfold run_turn.
  destruct (thread self); try (cbn; tauto).
  destruct (run_condition self); [| cbn; tauto].
  cbn [snd].
  rewrite run_body_delivered.
  destruct (continuous self); [| cbn; tauto].
  destruct reading as [x | e]; [| cbn; tauto].
  destruct (callback self); [| cbn; tauto].
  destruct (Qgeb x 0) eqn:Hx; [| cbn; tauto].
  intros [<- | []]. exists x.
  apply Qgeb_true in Hx. auto.
Qed.

(** Every dict handed to the callback during an execution comes from a
    successful, non-negative sensor value of one of its loop turns. *)
Lemma exec_delivered acts :
  forall self data,
    In data (delivered (task_events (snd (exec acts self)))) ->
    exists x,
      In x (task_readings acts) /\ 0 <= x /\
      type data = "ultrasonic"%string /\ distance data = round x 2.
Proof.
  induction acts as [| a rest IH]; intros self data Hin.
  - destruct Hin.
  - rewrite exec_cons in Hin. cbn [snd] in Hin.
    rewrite task_events_app, delivered_app, task_events_step in Hin.
    apply in_app_or in Hin. destruct Hin as [Hin | Hin].
    + destruct a; try (destruct Hin).
      apply run_turn_delivered in Hin.
      destruct Hin as (x & -> & Hx & ->).
      exists x. cbn. auto.
    + apply IH in Hin. destruct Hin as (x & Hx & H0 & Hd).
      exists x. split; [| auto].
      destruct a as [[y | e] now | | | | |]; cbn; auto.
Qed.

(** A loop turn changes nothing in the object but [last_distance], and
    spawns no thread. *)
Lemma run_body_state reading now self :
  state (run_body reading now self) =
    (if continuous self then
       match reading with
       | Ret d => set_last_distance d self
       | Raise _ => self
       end
     else self) /\
  launches (trace (run_body reading now self)) = 0%nat.
Proof.
  destruct self as [rn ct rate ld cbk se th].
  unfold run_body, try_except, bind, get.
  cbn [continuous callback].
  destruct ct; [| split; reflexivity].
  unfold get_single_reading, try_except, bind, ultra_checkdist, modify,
    divide, time_sleep, raise, ret, print, emit.
  destruct reading as [d | e];
    cbv beta iota zeta delta
      [set_last_distance callback update_rate running continuous
       last_distance _stop_event thread].
  - destruct cbk as [cb |]; [destruct (Qgeb d 0); [destruct (cb _) |] |];
      try (split; reflexivity);
      (destruct (Qeq_bool rate 0); [split; reflexivity |]);
      cbv beta iota zeta;
      destruct (Qltb (1 / rate) 0); split; reflexivity.
  - destruct cbk as [cb |];
      [destruct (Qgeb (-1) 0) eqn:E; [discriminate E |] |];
      (destruct (Qeq_bool rate 0); [split; reflexivity |]);
      cbv beta iota zeta;
      destruct (Qltb (1 / rate) 0); split; reflexivity.
Qed.

(** Once [_stop_event] is set it stays set, and the task does nothing. *)
Lemma step_after_stop a self :
  _stop_event self = true ->
  _stop_event (fst (step a self)) = true /\
  task_events (snd (step a self)) = [].
Proof.
  intros Hs. rewrite task_events_step.
  destruct self as [rn ct rate ld cbk se th]. cbn in Hs. subst se.
  destruct a as [reading now | cb | r | | reading |].
  - unfold step, run_turn, run_condition. cbn [thread running _stop_event].
    destruct th; cbn [negb]; rewrite ?andb_false_r; cbn; auto.
  - cbn. auto.
  - destruct rn, th; cbn; auto.
  - cbn. auto.
  - destruct reading; cbn; auto.
  - cbn. auto.
Qed.

Lemma exec_after_stop acts :
  forall self,
    _stop_event self = true ->
    task_events (snd (exec acts self)) = [].
Proof.
  induction acts as [| a rest IH]; intros self Hs; [reflexivity |].
  rewrite exec_cons. cbn [snd].
  destruct (step_after_stop a self Hs) as [Hs' Ht].
  rewrite task_events_app, Ht. cbn [app]. now apply IH.
Qed.

(** A thread that has left [Initial] never returns to it, and no other
    thread is spawned. *)
Lemma step_after_launch a self :
  thread self <> Initial ->
  thread (fst (step a self)) <> Initial /\
  launches (List.map snd (snd (step a self))) = 0%nat.
Proof.
  intros Ht.
  destruct a as [reading now | cb | r | | reading |].
  - unfold step, run_turn.
    destruct (thread self) eqn:Eth; [congruence | | cbn; rewrite Eth; split; [congruence | reflexivity]].
    destruct (run_condition self).
    + destruct (run_body_state reading now self) as [Hst Hl].
      cbn [fst snd]. rewrite events_done_by, Hst, Hl.
      split; [| reflexivity].
      destruct (continuous self); [destruct reading |]; cbn; congruence.
    + cbn. split; [discriminate | reflexivity].
  - destruct self as [rn ct rate ld cbk se th]; cbn in *; auto.
  - destruct self as [rn ct rate ld cbk se th]; cbn in Ht.
    destruct rn, th; cbn; try congruence; split; (discriminate || reflexivity).
  - destruct self as [rn ct rate ld cbk se th]; cbn in *; auto.
  - destruct self as [rn ct rate ld cbk se th]; destruct reading; cbn in *; auto.
  - destruct self as [rn ct rate ld cbk se th]; cbn in *; auto.
Qed.
Lemma exec_after_launch acts :
  forall self,
    thread self <> Initial ->
    launches (List.map snd (snd (exec acts self))) = 0%nat.
Proof.
  induction acts as [| a rest IH]; intros self Ht; [reflexivity |].
  rewrite exec_cons. cbn [snd].
  destruct (step_after_launch a self Ht) as [Ht' Hl].
  rewrite map_app, launches_app, Hl. cbn [Nat.add]. now apply IH.
Qed.

End ExecutionFacts.

Section MonitorClaims.
Import Move Monitor.

(** C5.  A loop turn whose sensor read fails, at a positive rate: the
    failure is printed by [get_single_reading], the callback is not called,
    the object is unchanged, and the turn sleeps [1 / update_rate] seconds,
    the interval of a successful turn. *)
Theorem run_body_read_failure :
  forall (self : UltrasonicMonitor) (e : exn) (now : Q),
    continuous self = true ->
    0 < update_rate self ->
    let r := run_body (Raise e) now self in
    result r = Ret tt /\
    state r = self /\
    reads (trace r) = 1%nat /\
    printed (trace r) = ["Sensor reading error"%string] /\
    delivered (trace r) = [] /\
    slept (trace r) == 1 / update_rate self.
Proof.
  intros self e now Hc Hr. cbv zeta.
  rewrite (run_body_read_failed e now self Hc Hr).
  cbn. repeat split; try reflexivity. ring.
Qed.

Lemma run_body_read_failure_witness :
  let self := state (start_continuous 10 __init__) in
  let r := run_body (Raise SensorReadError) 0 self in
  continuous self = true /\ 0 < update_rate self /\
  delivered (trace r) = [] /\ slept (trace r) == 1 / update_rate self.
Proof.
  cbv zeta.
  split; [reflexivity |]. split; [reflexivity |].
  pose proof (run_body_read_failure (state (start_continuous 10 __init__))
                SensorReadError 0 eq_refl eq_refl) as H.
  cbv zeta in H.
  destruct H as (_ & _ & _ & _ & Hd & Hs).
  split; [exact Hd | exact Hs].
Defined.

(** At 10 Hz a failed read is followed by a sleep of a tenth of a second,
    not of one second. *)
Lemma read_failure_sleeps_update_interval :
  let self := state (start_continuous 10 __init__) in
  continuous self = true /\
  trace (run_body (Raise SensorReadError) 0 self)
  = [UltraCheckdist; Printed "Sensor reading error" SensorReadError;
     Sleep (1 / 10)] /\
  slept (trace (run_body (Raise SensorReadError) 0 self)) == 1 # 10 /\
  ~ slept (trace (run_body (Raise SensorReadError) 0 self)) == 1.
Proof.
  cbv zeta. split; [reflexivity |]. split; [reflexivity |].
  split; [reflexivity |].
  intros H. vm_compute in H. discriminate H.
Qed.

(** The one-second sleep is that of the handler of [run], reached when
    the callback raises or when the rate is zero. *)
Example run_body_callback_raises :
  let self :=
    state (start_continuous 10
             (state (set_callback (Some (fun _ => Raise CallbackError))
                       __init__))) in
  trace (run_body (Ret 25) 0 self)
  = [UltraCheckdist; Called (mkSensorData "ultrasonic" (round 25 2) 0);
     Printed "Ultrasonic monitor error" CallbackError; Sleep 1].
Proof. reflexivity. Qed.

Example run_body_rate_zero :
  let self := state (start_continuous 0 __init__) in
  trace (run_body (Raise SensorReadError) 0 self)
  = [UltraCheckdist; Printed "Sensor reading error" SensorReadError;
     Printed "Ultrasonic monitor error" ZeroDivisionError; Sleep 1].
Proof. reflexivity. Qed.

(** C6.  [get_single_reading] always returns: when the sensor raises it
    returns -1 and leaves the object, hence [last_distance], as it was;
    when the sensor returns [d] it stores [d] in [last_distance] and
    returns [d]. *)
Theorem get_single_reading_never_raises :
  forall self : UltrasonicMonitor,
    (forall e,
        result (get_single_reading (Raise e) self) = Ret (-1) /\
        state (get_single_reading (Raise e) self) = self /\
        last_distance (state (get_single_reading (Raise e) self))
        = last_distance self) /\
    (forall d,
        result (get_single_reading (Ret d) self) = Ret d /\
        last_distance (state (get_single_reading (Ret d) self)) = d) /\
    (forall reading,
        exists v, result (get_single_reading reading self) = Ret v).
Proof.
  intros self. split; [| split].
  - intros e. rewrite get_single_reading_failed. cbn. auto.
  - intros d. rewrite get_single_reading_ok. cbn. auto.
  - intros [d | e].
    + exists d. now rewrite get_single_reading_ok.
    + exists (-1). now rewrite get_single_reading_failed.
Qed.

(** C7.  After [stop()] the loop of [run] performs no further turn,
    whatever the owner calls next.  If the thread had been started,
    [start_continuous] then raises the [RuntimeError] of [Thread.start()]
    and spawns nothing, having already overwritten [update_rate] and set
    [continuous] and [running]. *)
Theorem stop_is_final :
  (forall (self : UltrasonicMonitor) (acts : list action),
      task_events (snd (exec acts (state (stop self)))) = []) /\
  (forall (self : UltrasonicMonitor) (rate : Q) (acts : list action),
      thread self <> Initial ->
      let stopped := state (stop self) in
      let r := start_continuous rate stopped in
      result r = Raise RuntimeError /\
      launches (trace r) = 0%nat /\
      thread (state r) = thread self /\
      update_rate (state r) = rate /\
      continuous (state r) = true /\
      running (state r) = true /\
      launches (List.map snd (snd (exec acts stopped))) = 0%nat).
Proof.
  split.
  - intros self acts. apply exec_after_stop.
    destruct self; reflexivity.
  - intros self rate acts Ht. cbv zeta.
    assert (Hl : launches
                   (List.map snd (snd (exec acts (state (stop self))))) = 0%nat).
    { apply exec_after_launch. destruct self; exact Ht. }
    destruct self as [rn ct r0 ld cbk se th]. cbn in Ht.
    destruct th; [congruence | |]; cbn; auto 10.
Qed.

Lemma stop_is_final_witness :
  let self := state (start_continuous 5 __init__) in
  let stopped := state (stop self) in
  thread self <> Initial /\
  result (start_continuous 5 stopped) = Raise RuntimeError /\
  launches (trace (start_continuous 5 stopped)) = 0%nat.
Proof.
  cbv zeta.
  assert (Ht : thread (state (start_continuous 5 __init__)) <> Initial)
    by discriminate.
  split; [exact Ht |].
  destruct stop_is_final as [_ H].
  specialize (H (state (start_continuous 5 __init__)) 5 [] Ht).
  cbv zeta in H.
  destruct H as (Hr & Hl & _).
  split; [exact Hr | exact Hl].
Defined.

(** On an object whose thread was never started, [stop()] followed by
    [start_continuous(5)] returns normally and spawns the thread. *)
Lemma start_continuous_after_stop_spawns :
  let stopped := state (stop __init__) in
  thread stopped = Initial /\
  result (start_continuous 5 stopped) = Ret tt /\
  trace (start_continuous 5 stopped) = [Launch] /\
  launches (trace (start_continuous 5 stopped)) = 1%nat /\
  thread (state (start_continuous 5 stopped)) = Alive.
Proof. cbv zeta. repeat split; reflexivity. Qed.

(** C8.  While [running] is set, [start_continuous] only writes
    [update_rate] and [continuous]; on a new object it spawns the thread;
    and whatever follows the first call, exactly one thread is spawned in
    the whole execution. *)
Theorem start_continuous_launches_once :
  (forall (rate : Q) (self : UltrasonicMonitor),
      running self = true ->
      start_continuous rate self
      = (Ret tt, set_continuous true (set_update_rate rate self), [])) /\
  (forall rate : Q,
      start_continuous rate __init__
      = (Ret tt, mkMonitor true true rate 0 None false Alive, [Launch])) /\
  (forall (rate : Q) (acts : list action),
      launches
        (List.map snd
           (snd (exec (Call_start_continuous rate :: acts) __init__)))
      = 1%nat).
Proof.
  split; [| split].
  - intros rate self Hr.
    destruct self as [rn ct r0 ld cbk se th]. cbn in Hr. subst rn.
    reflexivity.
  - reflexivity.
  - intros rate acts. rewrite exec_cons. cbn [snd].
    rewrite map_app, launches_app.
    rewrite exec_after_launch; [reflexivity | discriminate].
Qed.

Lemma start_continuous_launches_once_witness :
  let self := state (start_continuous 5 __init__) in
  running self = true /\
  start_continuous 5 self
  = (Ret tt, set_continuous true (set_update_rate 5 self), []).
Proof.
  cbv zeta. split; [reflexivity |].
  destruct start_continuous_launches_once as [H _].
  apply (H 5 (state (start_continuous 5 __init__))). reflexivity.
Defined.

(** C9.  Every dict handed to the callback by the loop carries, as
    ['distance'], a successful sensor value of one of the loop turns
    rounded to two decimals: a whole number of hundredths at most half a
    hundredth away from the value read. *)
Theorem delivered_distance_is_rounded_reading :
  forall (acts : list action) (self : UltrasonicMonitor) (data : SensorData),
    In data (delivered (task_events (snd (exec acts self)))) ->
    exists x,
      In x (task_readings acts) /\
      distance data = round x 2 /\
      (exists n : Z, distance data == inject_Z n / 100) /\
      Qabs (distance data - x) <= 1 # 200.
Proof.
  intros acts self data Hin.
  apply exec_delivered in Hin.
  destruct Hin as (x & Hx & _ & _ & Hd).
  exists x. rewrite Hd.
  destruct (round_2_spec x) as [Hn Ha]. auto.
Qed.

Lemma delivered_distance_is_rounded_reading_witness :
  let acts :=
    [Call_set_callback (Some (fun _ => Ret tt));
     Call_start_continuous 10;
     Tick (Ret (12345 # 1000)) 7] in
  let data := mkSensorData "ultrasonic" (round (12345 # 1000) 2) 7 in
  In data (delivered (task_events (snd (exec acts __init__)))) /\
  exists x,
    In x (task_readings acts) /\
    distance data = round x 2 /\
    (exists n : Z, distance data == inject_Z n / 100) /\
    Qabs (distance data - x) <= 1 # 200.
Proof.
  cbv zeta.
  assert (Hin :
    In (mkSensorData "ultrasonic" (round (12345 # 1000) 2) 7)
       (delivered
          (task_events
             (snd (exec [Call_set_callback (Some (fun _ => Ret tt));
                         Call_start_continuous 10;
                         Tick (Ret (12345 # 1000)) 7] __init__))))).
  { left. reflexivity. }
  split; [exact Hin |].
  exact (delivered_distance_is_rounded_reading _ _ _ Hin).
Defined.

(** C10.  A loop turn whose read fails hands nothing to the callback, and
    every dict handed to the callback during an execution comes from a
    sensor value that is >= 0 and carries a ['distance'] that is >= 0. *)
Theorem delivered_distance_nonneg :
  (forall (e : exn) (now : Q) (self : UltrasonicMonitor),
      delivered (trace (run_body (Raise e) now self)) = []) /\
  (forall (d now : Q) (self : UltrasonicMonitor),
      d < 0 -> delivered (trace (run_body (Ret d) now self)) = []) /\
  (forall (acts : list action) (self : UltrasonicMonitor) (data : SensorData),
      In data (delivered (task_events (snd (exec acts self)))) ->
      (exists x, In x (task_readings acts) /\ 0 <= x) /\
      0 <= distance data).
Proof.
  split; [| split].
  - intros e now self. rewrite run_body_delivered.
    destruct (continuous self); reflexivity.
  - intros d now self Hd. rewrite run_body_delivered.
    destruct (continuous self); [| reflexivity].
    destruct (callback self); [| reflexivity].
    destruct (Qgeb d 0) eqn:E; [| reflexivity].
    apply Qgeb_true in E. lra.
  - intros acts self data Hin.
    apply exec_delivered in Hin.
    destruct Hin as (x & Hx & H0 & _ & Hd).
    split; [exists x; auto |].
    rewrite Hd. now apply round_2_nonneg.
Qed.

Lemma delivered_distance_nonneg_witness :
  let acts :=
    [Call_set_callback (Some (fun _ => Ret tt));
     Call_start_continuous 10;
     Tick (Raise SensorReadError) 3;
     Tick (Ret (- (5 # 1))) 4;
     Tick (Ret (12345 # 1000)) 7] in
  let data := mkSensorData "ultrasonic" (round (12345 # 1000) 2) 7 in
  delivered (task_events (snd (exec acts __init__))) = [data] /\
  0 <= distance data.
Proof.
  cbv zeta.
  split; [reflexivity |].
  destruct delivered_distance_nonneg as (_ & _ & H).
  refine (proj2 (H [Call_set_callback (Some (fun _ => Ret tt));
                    Call_start_continuous 10;
                    Tick (Raise SensorReadError) 3;
                    Tick (Ret (- (5 # 1))) 4;
                    Tick (Ret (12345 # 1000)) 7]
                   __init__
                   (mkSensorData "ultrasonic" (round (12345 # 1000) 2) 7) _)).
  left. reflexivity.
Defined.

End MonitorClaims.

(* ====================================================================== *)
(** * Part V: further properties of the motor layer                       *)
(* ====================================================================== *)

Section MotorMore.
Import Move.

(** X1.  [map] sends the ends of the input range to the ends of the output
    range and, on an increasing pair of ranges, keeps the order. *)
Theorem map_endpoints_monotone :
  forall in_min in_max out_min out_max : Q,
    in_min < in_max ->
    map in_min in_min in_max out_min out_max == out_min /\
    map in_max in_min in_max out_min out_max == out_max /\
    (out_min <= out_max ->
     forall x y, x <= y ->
       map x in_min in_max out_min out_max
       <= map y in_min in_max out_min out_max).
Proof.
  intros a b c d Hab.
  assert (Hne : ~ b - a == 0) by lra.
  split; [| split].
  - unfold map. field. exact Hne.
  - unfold map. field. exact Hne.
  - intros Hcd x y Hxy. unfold map.
    apply Qplus_le_l.
    apply Qmult_le_compat_r; [| lra].
    unfold Qdiv. apply Qmult_le_compat_r; [lra |].
    apply Qlt_le_weak, Qinv_lt_0_compat. lra.
Qed.

Lemma map_endpoints_monotone_witness :
  0 < 100 /\
  map 0 0 100 0 1 == 0 /\ map 100 0 100 0 1 == 1 /\
  map 30 0 100 0 1 <= map 50 0 100 0 1.
Proof.
  split; [reflexivity |].
  destruct (map_endpoints_monotone 0 100 0 1 eq_refl) as (H0 & H1 & Hm).
  split; [exact H0 |]. split; [exact H1 |].
  apply Hm; discriminate.
Defined.

Lemma clamp_speed_low ms : ms <= 0 -> clamp_speed ms == 0.
Proof.
  intros H. unfold clamp_speed.
  destruct (Qgtb ms 100) eqn:Hhi; [apply Qgtb_true in Hhi; lra |].
  destruct (Qltb ms 0) eqn:Hlo; [reflexivity |].
  apply Qltb_false in Hlo. lra.
Qed.

Lemma clamp_speed_high ms : 100 <= ms -> clamp_speed ms == 100.
Proof.
  intros H. unfold clamp_speed.
  destruct (Qgtb ms 100) eqn:Hhi; [reflexivity |].
  apply Qgtb_false in Hhi.
  destruct (Qltb ms 0) eqn:Hlo; [apply Qltb_true in Hlo; lra | lra].
Qed.

Lemma clamp_speed_monotone ms ms' :
  ms <= ms' -> clamp_speed ms <= clamp_speed ms'.
Proof.
  intros H. unfold clamp_speed.
  destruct (Qgtb ms 100) eqn:H1; destruct (Qgtb ms' 100) eqn:H2;
    try apply Qgtb_true in H1; try apply Qgtb_false in H1;
    try apply Qgtb_true in H2; try apply Qgtb_false in H2;
    destruct (Qltb ms 0) eqn:H3; destruct (Qltb ms' 0) eqn:H4;
    try apply Qltb_true in H3; try apply Qltb_false in H3;
    try apply Qltb_true in H4; try apply Qltb_false in H4;
    lra.
Qed.

Lemma Motor_speed_forward d ms :
  d <> (-1)%Z -> Motor_speed d ms = map (clamp_speed ms) 0 100 0 1.
Proof.
  intros Hd. unfold Motor_speed.
  apply Z.eqb_neq in Hd. now rewrite Hd.
Qed.

Lemma Motor_speed_full ms : 100 <= ms -> Motor_speed 1 ms == 1.
Proof.
  intros H. rewrite Motor_speed_forward by discriminate.
  rewrite map_percent, (clamp_speed_high ms H). reflexivity.
Qed.

(** X2.  The throttle computed by [Motor]: 0 up to speed 0, full from speed
    100 on, never decreasing in between; direction -1 gives the exact
    opposite and every other direction value counts as forward. *)
Theorem Motor_speed_shape :
  forall motor_speed : Q,
    (motor_speed <= 0 -> Motor_speed 1 motor_speed == 0) /\
    (100 <= motor_speed -> Motor_speed 1 motor_speed == 1) /\
    (forall motor_speed',
        motor_speed <= motor_speed' ->
        Motor_speed 1 motor_speed <= Motor_speed 1 motor_speed') /\
    Motor_speed (-1) motor_speed == - Motor_speed 1 motor_speed /\
    (forall direction,
        direction <> (-1)%Z ->
        Motor_speed direction motor_speed = Motor_speed 1 motor_speed).
Proof.
  intros ms. split; [| split; [| split; [| split]]].
  - intros H. rewrite Motor_speed_forward by discriminate.
    rewrite map_percent, (clamp_speed_low ms H). reflexivity.
  - apply Motor_speed_full.
  - intros ms' H. rewrite !Motor_speed_forward by discriminate.
    rewrite !map_percent.
    pose proof (clamp_speed_monotone ms ms' H) as Hc.
    assert (H1 : clamp_speed ms / 100 == clamp_speed ms * (1 # 100)) by field.
    assert (H2 : clamp_speed ms' / 100 == clamp_speed ms' * (1 # 100)) by field.
    rewrite H1, H2. lra.
  - unfold Motor_speed. cbn [Z.eqb Z.opp Pos.eqb]. reflexivity.
  - intros d Hd. rewrite (Motor_speed_forward d ms Hd).
    rewrite Motor_speed_forward by discriminate. reflexivity.
Qed.

Lemma Motor_speed_shape_witness :
  (- (5 # 1)) <= 0 /\ Motor_speed 1 (- (5 # 1)) == 0.
Proof.
  split; [discriminate |].
  destruct (Motor_speed_shape (- (5 # 1))) as (H & _).
  apply H. discriminate.
Defined.

(** X3.  What [Motor] leaves alone: the throttle of every other channel, and
    of all four motors when the channel is not one of 1..4; the PWM
    frequency is set to [FREQ] in every case. *)
Theorem Motor_frame :
  forall (channel direction : Z) (motor_speed : Q) (hw : Hardware),
    frequency (Motor channel direction motor_speed hw) = FREQ /\
    (forall c, c <> channel ->
       throttle c (Motor channel direction motor_speed hw) = throttle c hw) /\
    (~ (1 <= channel <= 4)%Z ->
       motor1 (Motor channel direction motor_speed hw) = motor1 hw /\
       motor2 (Motor channel direction motor_speed hw) = motor2 hw /\
       motor3 (Motor channel direction motor_speed hw) = motor3 hw /\
       motor4 (Motor channel direction motor_speed hw) = motor4 hw).
Proof.
  intros channel direction ms hw. unfold Motor.
  split; [| split].
  - destruct (channel =? 1)%Z; [reflexivity |].
    destruct (channel =? 2)%Z; [reflexivity |].
    destruct (channel =? 3)%Z; [reflexivity |].
    destruct (channel =? 4)%Z; reflexivity.
  - intros c Hc. unfold throttle.
    destruct (channel =? 1)%Z eqn:E1;
      [apply Z.eqb_eq in E1; subst channel;
       replace (c =? 1)%Z with false by (symmetry; now apply Z.eqb_neq);
       reflexivity |].
    destruct (channel =? 2)%Z eqn:E2;
      [apply Z.eqb_eq in E2; subst channel;
       replace (c =? 2)%Z with false by (symmetry; now apply Z.eqb_neq);
       reflexivity |].
    destruct (channel =? 3)%Z eqn:E3;
      [apply Z.eqb_eq in E3; subst channel;
       replace (c =? 3)%Z with false by (symmetry; now apply Z.eqb_neq);
       reflexivity |].
    destruct (channel =? 4)%Z eqn:E4;
      [apply Z.eqb_eq in E4; subst channel;
       replace (c =? 4)%Z with false by (symmetry; now apply Z.eqb_neq);
       reflexivity |].
    reflexivity.
  - intros Hout.
    replace (channel =? 1)%Z with false by (symmetry; apply Z.eqb_neq; lia).
    replace (channel =? 2)%Z with false by (symmetry; apply Z.eqb_neq; lia).
    replace (channel =? 3)%Z with false by (symmetry; apply Z.eqb_neq; lia).
    replace (channel =? 4)%Z with false by (symmetry; apply Z.eqb_neq; lia).
    cbn. auto.
Qed.

Lemma Motor_frame_witness :
  2%Z <> 1%Z /\ ~ (1 <= 7 <= 4)%Z /\
  throttle 2 (Motor 1 1 50 after_setup) = throttle 2 after_setup /\
  motor1 (Motor 7 1 50 after_setup) = motor1 after_setup.
Proof.
  split; [discriminate |]. split; [lia |].
  split.
  - destruct (Motor_frame 1 1 50 after_setup) as (_ & H & _).
    apply H. discriminate.
  - destruct (Motor_frame 7 1 50 after_setup) as (_ & _ & H).
    apply H. lia.
Defined.

(** X4.  Speed 0 stops all four motors in the three modes, whatever the
    direction, the turn and the radius, and leaves the PWM frequency as it
    was. *)
Theorem speed_zero_stops_all_motors :
  forall (direction : Z) (turn : string) (radius : Q) (hw : Hardware),
    move 0 direction turn radius hw = mkHardware 0 0 0 0 (frequency hw) /\
    trackingMove 0 direction turn radius hw
    = mkHardware 0 0 0 0 (frequency hw) /\
    video_Tracking_Move 0 direction turn radius hw
    = mkHardware 0 0 0 0 (frequency hw).
Proof. intros. repeat split. Qed.

(** X5.  With a non-zero speed and a direction that is neither 1 nor -1, the
    three modes write nothing: the motors keep the throttles they had. *)
Theorem unknown_direction_writes_nothing :
  forall (speed direction : Z) (turn : string) (radius : Q) (hw : Hardware),
    speed <> 0%Z -> direction <> 1%Z -> direction <> (-1)%Z ->
    move speed direction turn radius hw = hw /\
    trackingMove speed direction turn radius hw = hw /\
    video_Tracking_Move speed direction turn radius hw = hw.
Proof.
  intros speed direction turn radius hw Hs H1 H2.
  apply Z.eqb_neq in Hs, H1, H2.
  unfold move, trackingMove, video_Tracking_Move.
  rewrite Hs, H1, H2. auto.
Qed.

Lemma unknown_direction_writes_nothing_witness :
  let hw := move 50 1 "mid" (6 # 10) after_setup in
  50%Z <> 0%Z /\ 0%Z <> 1%Z /\ 0%Z <> (-1)%Z /\
  move 50 0 "mid" (6 # 10) hw = hw.
Proof.
  cbv zeta.
  split; [discriminate |]. split; [discriminate |]. split; [discriminate |].
  apply (unknown_direction_writes_nothing 50 0 "mid" (6 # 10));
    discriminate.
Defined.

(** X6.  Backward ignores the turn and the radius in the three modes, and the
    vision mode backward is the basic mode backward. *)
Theorem backward_ignores_turn :
  forall (speed : Z) (turn turn' : string) (radius radius' : Q)
         (hw : Hardware),
    move speed (-1) turn radius hw = move speed (-1) turn' radius' hw /\
    trackingMove speed (-1) turn radius hw
    = trackingMove speed (-1) turn' radius' hw /\
    video_Tracking_Move speed (-1) turn radius hw
    = move speed (-1) turn' radius' hw.
Proof.
  intros. unfold move, trackingMove, video_Tracking_Move.
  destruct (speed =? 0)%Z; repeat split.
Qed.

(** X7.  With a non-zero speed the three modes never write motors 3 and 4. *)
Theorem modes_leave_motors_3_4 :
  forall (speed direction : Z) (turn : string) (radius : Q) (hw : Hardware),
    speed <> 0%Z ->
    (motor3 (move speed direction turn radius hw) = motor3 hw /\
     motor4 (move speed direction turn radius hw) = motor4 hw) /\
    (motor3 (trackingMove speed direction turn radius hw) = motor3 hw /\
     motor4 (trackingMove speed direction turn radius hw) = motor4 hw) /\
    (motor3 (video_Tracking_Move speed direction turn radius hw) = motor3 hw /\
     motor4 (video_Tracking_Move speed direction turn radius hw) = motor4 hw).
Proof.
  intros speed direction turn radius hw Hs.
  apply Z.eqb_neq in Hs.
  unfold move, trackingMove, video_Tracking_Move. rewrite Hs.
  destruct (direction =? 1)%Z;
    [destruct (String.eqb turn "left");
     [| destruct (String.eqb turn "right")]
    | destruct (direction =? -1)%Z];
    repeat split.
Qed.

Lemma modes_leave_motors_3_4_witness :
  let hw := mkHardware 0 0 (1 # 2) (- (1 # 4)) FREQ in
  50%Z <> 0%Z /\
  motor3 (move 50 1 "left" (6 # 10) hw) = 1 # 2 /\
  motor4 (move 50 1 "left" (6 # 10) hw) = - (1 # 4).
Proof.
  cbv zeta. split; [discriminate |].
  destruct (modes_leave_motors_3_4 50 1 "left" (6 # 10)
              (mkHardware 0 0 (1 # 2) (- (1 # 4)) FREQ)) as (H & _).
  - discriminate.
  - exact H.
Defined.

(** X8.  With a non-zero speed and direction 1 or -1, what the three modes
    write to motors 1 and 2 and to the frequency does not depend on the
    state they start from: a command replaces the previous one. *)
Theorem modes_override_previous_command :
  forall (speed direction : Z) (turn : string) (radius : Q)
         (hw hw' : Hardware),
    speed <> 0%Z -> direction = 1%Z \/ direction = (-1)%Z ->
    let same (m m' : Hardware) :=
      motor1 m = motor1 m' /\ motor2 m = motor2 m' /\
      frequency m = FREQ /\ frequency m' = FREQ in
    same (move speed direction turn radius hw)
         (move speed direction turn radius hw') /\
    same (trackingMove speed direction turn radius hw)
         (trackingMove speed direction turn radius hw') /\
    same (video_Tracking_Move speed direction turn radius hw)
         (video_Tracking_Move speed direction turn radius hw').
Proof.
  intros speed direction turn radius hw hw' Hs Hd. cbv zeta.
  apply Z.eqb_neq in Hs.
  unfold move, trackingMove, video_Tracking_Move. rewrite Hs.
  destruct Hd as [-> | ->]; cbn [Z.eqb Pos.eqb];
    [destruct (String.eqb turn "left");
     [| destruct (String.eqb turn "right")] |];
    repeat split.
Qed.

Lemma modes_override_previous_command_witness :
  30%Z <> 0%Z /\ (1%Z = 1%Z \/ 1%Z = (-1)%Z) /\
  motor1 (move 30 1 "mid" (6 # 10) (move 80 (-1) "mid" (6 # 10) after_setup))
  = motor1 (move 30 1 "mid" (6 # 10) after_setup).
Proof.
  split; [discriminate |]. split; [left; reflexivity |].
  destruct (modes_override_previous_command 30 1 "mid" (6 # 10)
              (move 80 (-1) "mid" (6 # 10) after_setup) after_setup)
    as (H & _).
  - discriminate.
  - left; reflexivity.
  - exact (proj1 H).
Defined.

Lemma Motor_speed_reverse ms : Motor_speed (-1) ms == - Motor_speed 1 ms.
Proof. unfold Motor_speed. cbn [Z.eqb Z.opp Pos.eqb]. reflexivity. Qed.

Lemma Motor_speed_pos ms : 0 < ms -> 0 < Motor_speed 1 ms.
Proof.
  intros H. rewrite Motor_speed_forward by discriminate.
  rewrite map_percent.
  assert (Hc : 0 < clamp_speed ms).
  { unfold clamp_speed.
    destruct (Qgtb ms 100); [lra |].
    destruct (Qltb ms 0) eqn:Hlt; [apply Qltb_true in Hlt; lra | exact H]. }
  assert (He : clamp_speed ms / 100 == clamp_speed ms * (1 # 100)) by field.
  rewrite He. lra.
Qed.

Lemma inject_Z_pos (z : Z) : (0 < z)%Z -> 0 < inject_Z z.
Proof. intros H. change 0 with (inject_Z 0). now rewrite <- Zlt_Qlt. Qed.

(** X9.  The turns of [move] are counter-rotations: the two motors get
    opposite throttles, motor 1 reversed on 'left', motor 2 reversed on
    'right', and 'right' is 'left' with the two motors exchanged. *)
Theorem move_turn_is_counter_rotation :
  forall (speed : Z) (radius : Q) (hw : Hardware),
    let l := move speed 1 "left" radius hw in
    let r := move speed 1 "right" radius hw in
    motor1 l == - motor2 l /\
    motor1 l = motor2 r /\ motor2 l = motor1 r /\
    ((0 < speed)%Z -> motor1 l < 0 /\ 0 < motor2 l).
Proof.
  intros speed radius hw. cbv zeta. unfold move.
  destruct (speed =? 0)%Z eqn:Hs.
  - cbn. repeat split; try reflexivity; apply Z.eqb_eq in Hs; lia.
  - cbn -[Motor_speed].
    split; [apply Motor_speed_reverse |].
    split; [reflexivity |]. split; [reflexivity |].
    intros Hpos. pose proof (Motor_speed_pos _ (inject_Z_pos _ Hpos)) as Hp.
    pose proof (Motor_speed_reverse (inject_Z speed)) as Hr.
    change (Motor_speed (-1) (inject_Z speed) < 0 /\
            0 < Motor_speed 1 (inject_Z speed)).
    split; lra.
Qed.

Lemma move_turn_is_counter_rotation_witness :
  (0 < 30)%Z /\
  motor1 (move 30 1 "left" (6 # 10) after_setup) < 0 /\
  0 < motor2 (move 30 1 "left" (6 # 10) after_setup).
Proof.
  split; [lia |].
  pose proof (move_turn_is_counter_rotation 30 (6 # 10) after_setup) as H.
  cbv zeta in H. destruct H as (_ & _ & _ & H).
  apply H. lia.
Defined.

(** X10.  The vision turn inside its domain: the outer motor runs reversed at
    [speed/100] and the inner motor forward at [speed*radius/100], so the
    inner motor is stopped at radius 0 and never faster than the outer one;
    'right' exchanges the two motors. *)
Theorem video_Tracking_Move_proportional :
  forall (speed : Z) (radius : Q) (hw : Hardware),
    (0 < speed <= 100)%Z -> 0 <= radius <= 1 ->
    let l := video_Tracking_Move speed 1 "left" radius hw in
    let r := video_Tracking_Move speed 1 "right" radius hw in
    motor1 l == - (inject_Z speed / 100) /\
    motor2 l == inject_Z speed * radius / 100 /\
    motor1 r = motor2 l /\ motor2 r = motor1 l /\
    0 <= motor2 l <= - motor1 l.
Proof.
  intros speed radius hw [Hpos Hle] [Hr0 Hr1]. cbv zeta.
  unfold video_Tracking_Move.
  replace (speed =? 0)%Z with false by (symmetry; apply Z.eqb_neq; lia).
  cbn -[Motor_speed].
  pose proof (inject_Z_pos _ Hpos) as Hq.
  assert (Hq100 : inject_Z speed <= 100).
  { change 100 with (inject_Z 100). now rewrite <- Zle_Qle. }
  assert (Hprod : 0 <= inject_Z speed * radius <= 100).
  { split.
    - apply Qmult_le_0_compat; lra.
    - apply Qle_trans with (inject_Z speed * 1); [| lra].
      apply Qmult_le_l; assumption. }
  assert (H1 : Motor_speed (-1) (inject_Z speed) == - (inject_Z speed / 100)).
  { rewrite (Motor_speed_percent (-1) speed) by lia. reflexivity. }
  assert (H2 : Motor_speed 1 (inject_Z speed * radius)
               == inject_Z speed * radius / 100).
  { rewrite Motor_speed_forward by discriminate.
    rewrite (clamp_speed_id _ Hprod). apply map_percent. }
  split; [exact H1 |]. split; [exact H2 |].
  split; [reflexivity |]. split; [reflexivity |].
  rewrite H1, H2.
  assert (Ha : inject_Z speed * radius / 100
               == inject_Z speed * radius * (1 # 100)) by field.
  assert (Hb : inject_Z speed / 100 == inject_Z speed * (1 # 100)) by field.
  rewrite Ha, Hb.
  assert (Hle2 : inject_Z speed * radius <= inject_Z speed).
  { apply Qle_trans with (inject_Z speed * 1); [| lra].
    apply Qmult_le_l; assumption. }
  destruct Hprod as [Hp0 _]. split; lra.
Qed.

Lemma video_Tracking_Move_proportional_witness :
  (0 < 60 <= 100)%Z /\ 0 <= 1 # 2 <= 1 /\
  motor1 (video_Tracking_Move 60 1 "left" (1 # 2) after_setup)
  == - (inject_Z 60 / 100) /\
  motor2 (video_Tracking_Move 60 1 "left" (1 # 2) after_setup)
  == inject_Z 60 * (1 # 2) / 100.
Proof.
  split; [lia |]. split; [split; discriminate |].
  pose proof (video_Tracking_Move_proportional 60 (1 # 2) after_setup) as H.
  cbv zeta in H.
  destruct H as (H1 & H2 & _); [lia | split; discriminate |].
  split; [exact H1 | exact H2].
Defined.

(** X11.  Straight line tracking inside the speed domain: motor 2 runs at
    [speed/100] and motor 1 ten hundredths faster, until motor 1 saturates
    at full throttle from speed 90 on. *)
Theorem trackingMove_straight_formula :
  forall (speed : Z) (radius : Q) (hw : Hardware),
    (0 < speed <= 100)%Z ->
    let m := trackingMove speed 1 "mid" radius hw in
    motor2 m == inject_Z speed / 100 /\
    ((speed <= 90)%Z -> motor1 m == inject_Z speed / 100 + (1 # 10)) /\
    ((90 <= speed)%Z -> motor1 m == 1).
Proof.
  intros speed radius hw [Hpos Hle]. cbv zeta.
  unfold trackingMove.
  replace (speed =? 0)%Z with false by (symmetry; apply Z.eqb_neq; lia).
  cbn -[Motor_speed]. unfold TL_RIGHT_Offset, TL_LEFT_Offset.
  rewrite Z.add_0_r.
  split; [| split].
  - rewrite (Motor_speed_percent 1 speed) by lia. reflexivity.
  - intros H90.
    rewrite (Motor_speed_percent 1 (speed + 10)) by lia.
    cbn [Z.eqb]. rewrite inject_Z_plus. field.
  - intros H90.
    apply Motor_speed_full. change 100 with (inject_Z 100). rewrite <- Zle_Qle. lia.
Qed.

Lemma trackingMove_straight_formula_witness :
  (0 < 95 <= 100)%Z /\ (90 <= 95)%Z /\
  motor1 (trackingMove 95 1 "mid" (6 # 10) after_setup) == 1.
Proof.
  split; [lia |]. split; [lia |].
  pose proof (trackingMove_straight_formula 95 (6 # 10) after_setup) as H.
  cbv zeta in H.
  destruct H as (_ & _ & H); [lia |].
  apply H. lia.
Defined.

(** X12.  Backward is forward straight with both throttles negated, in the
    basic and in the line tracking mode, at every speed. *)
Theorem backward_negates_forward :
  forall (speed : Z) (turn : string) (radius : Q) (hw : Hardware),
    motor1 (move speed (-1) turn radius hw)
    == - motor1 (move speed 1 "mid" radius hw) /\
    motor2 (move speed (-1) turn radius hw)
    == - motor2 (move speed 1 "mid" radius hw) /\
    motor1 (trackingMove speed (-1) turn radius hw)
    == - motor1 (trackingMove speed 1 "mid" radius hw) /\
    motor2 (trackingMove speed (-1) turn radius hw)
    == - motor2 (trackingMove speed 1 "mid" radius hw).
Proof.
  intros speed turn radius hw. unfold move, trackingMove.
  destruct (speed =? 0)%Z.
  - cbn. repeat split; reflexivity.
  - cbn -[Motor_speed]. repeat split; apply Motor_speed_reverse.
Qed.

End MotorMore.

(* ====================================================================== *)
(** * Part VI: further properties of the ultrasonic monitor               *)
(* ====================================================================== *)

Section MonitorMore.
Import Move Monitor.

Lemma Qinv_rate_strict r :
  Qeq_bool r 0 = false -> Qltb (1 / r) 0 = false -> 0 < 1 / r.
Proof.
  intros Hz Hn.
  apply Qltb_false in Hn.
  assert (Hne : ~ r == 0).
  { intros E. apply Qeq_bool_iff in E. congruence. }
  destruct (Qlt_le_dec 0 r) as [Hpos | Hneg].
  - unfold Qdiv. rewrite Qmult_1_l. now apply Qinv_lt_0_compat.
  - exfalso.
    assert (Hr : 0 <= - r) by lra.
    pose proof (Qmult_le_0_compat _ _ Hr Hn) as Hp.
    assert (E : - r * (1 / r) == - (1)) by (field; exact Hne).
    rewrite E in Hp. lra.
Qed.

(** X13.  A loop turn never raises and always ends in exactly one [time.sleep]
    of a positive length, whatever the sensor, the callback and the rate
    do. *)
Theorem run_body_always_sleeps :
  forall (reading : outcome Q) (now : Q) (self : UltrasonicMonitor),
    let r := run_body reading now self in
    result r = Ret tt /\
    exists t,
      sleeps (trace r) = [t] /\
      last (trace r) UltraCheckdist = Sleep t /\
      0 < t.
Proof.
  intros reading now self. cbv zeta.
  destruct self as [rn ct rate ld cbk se th].
  unfold run_body, try_except, bind, get.
  cbn [continuous callback].
  destruct ct;
    [| split; [reflexivity | exists (1 # 10); repeat split; reflexivity]].
  unfold get_single_reading, try_except, bind, ultra_checkdist, modify,
    divide, time_sleep, raise, ret, print, emit.
  destruct reading as [d | e];
    cbv beta iota zeta delta
      [set_last_distance callback update_rate running continuous
       last_distance _stop_event thread].
  - destruct cbk as [cb |]; [destruct (Qgeb d 0); [destruct (cb _) |] |];
      try (split; [reflexivity | exists 1; repeat split; reflexivity]);
      (destruct (Qeq_bool rate 0) eqn:Hz;
       [split; [reflexivity | exists 1; repeat split; reflexivity] |]);
      cbv beta iota zeta;
      (destruct (Qltb (1 / rate) 0) eqn:Hn;
       [split; [reflexivity | exists 1; repeat split; reflexivity] |]);
      (split; [reflexivity |]);
      exists (1 / rate); (split; [reflexivity |]); (split; [reflexivity |]);
      apply Qinv_rate_strict; assumption.
  - destruct cbk as [cb |];
      [destruct (Qgeb (-1) 0) eqn:E; [discriminate E |] |];
      (destruct (Qeq_bool rate 0) eqn:Hz;
       [split; [reflexivity | exists 1; repeat split; reflexivity] |]);
      cbv beta iota zeta;
      (destruct (Qltb (1 / rate) 0) eqn:Hn;
       [split; [reflexivity | exists 1; repeat split; reflexivity] |]);
      (split; [reflexivity |]);
      exists (1 / rate); (split; [reflexivity |]); (split; [reflexivity |]);
      apply Qinv_rate_strict; assumption.
Qed.

(** The number of sensor reads of a loop turn. *)
Lemma run_body_reads reading now self :
  reads (trace (run_body reading now self)) =
  if continuous self then 1%nat else 0%nat.
Proof.
  destruct self as [rn ct rate ld cbk se th].
  unfold run_body, try_except, bind, get.
  cbn [continuous callback].
  destruct ct; [| reflexivity].
  unfold get_single_reading, try_except, bind, ultra_checkdist, modify,
    divide, time_sleep, raise, ret, print, emit.
  destruct reading as [d | e];
    cbv beta iota zeta delta
      [set_last_distance callback update_rate running continuous
       last_distance _stop_event thread].
  - destruct cbk as [cb |]; [destruct (Qgeb d 0); [destruct (cb _) |] |];
      try reflexivity;
      (destruct (Qeq_bool rate 0); [reflexivity |]);
      cbv beta iota zeta;
      destruct (Qltb (1 / rate) 0); reflexivity.
  - destruct cbk as [cb |];
      [destruct (Qgeb (-1) 0) eqn:E; [discriminate E |] |];
      (destruct (Qeq_bool rate 0); [reflexivity |]);
      cbv beta iota zeta;
      destruct (Qltb (1 / rate) 0); reflexivity.
Qed.

Lemma reads_app t1 t2 : reads (t1 ++ t2) = (reads t1 + reads t2)%nat.
Proof. unfold reads. now rewrite filter_app, length_app. Qed.

(** X14.  [stop_continuous()] pauses a running monitor without ending its
    thread: the next loop turn only sleeps 0.1 s, and a later
    [start_continuous] resumes sampling without spawning anything. *)
Theorem stop_continuous_pauses :
  forall (self : UltrasonicMonitor) (reading : outcome Q) (now rate : Q),
    thread self = Alive -> running self = true -> _stop_event self = false ->
    let paused := state (stop_continuous self) in
    thread paused = Alive /\
    run_turn reading now paused = (paused, [Sleep (1 # 10)]) /\
    start_continuous rate paused
    = (Ret tt, set_continuous true (set_update_rate rate paused), []).
Proof.
  intros self reading now rate Ht Hr Hs. cbv zeta.
  destruct self as [rn ct r0 ld cbk se th]. cbn in Ht, Hr, Hs. subst.
  repeat split.
Qed.

Lemma stop_continuous_pauses_witness :
  let self := state (start_continuous 5 __init__) in
  let paused := state (stop_continuous self) in
  thread self = Alive /\ running self = true /\ _stop_event self = false /\
  run_turn (Ret 25) 0 paused = (paused, [Sleep (1 # 10)]).
Proof.
  cbv zeta.
  split; [reflexivity |]. split; [reflexivity |]. split; [reflexivity |].
  pose proof (stop_continuous_pauses (state (start_continuous 5 __init__))
                (Ret 25) 0 5 eq_refl eq_refl eq_refl) as H.
  cbv zeta in H. exact (proj1 (proj2 H)).
Defined.

(** One action that is not [stop()] keeps a live thread live. *)
Lemma step_keeps_alive a self :
  is_stop a = false ->
  thread self = Alive /\ running self = true /\ _stop_event self = false ->
  let s := fst (step a self) in
  thread s = Alive /\ running s = true /\ _stop_event s = false.
Proof.
  intros Ha (Ht & Hr & Hs). cbv zeta.
  destruct a as [reading now | cb | r | | reading |]; try discriminate Ha.
  - unfold step, run_turn, run_condition. rewrite Ht, Hr, Hs. cbn [andb negb].
    destruct (run_body_state reading now self) as [Hst _].
    cbn [fst]. rewrite Hst.
    destruct (continuous self); [destruct reading |]; cbn; auto.
  - destruct self; cbn in *; auto.
  - destruct self as [rn ct r0 ld cbk se th]; cbn in *; subst; cbn; auto.
  - destruct self; cbn in *; auto.
  - destruct self; destruct reading; cbn in *; auto.
Qed.

(** X15.  As long as [stop()] is not called the thread stays in its loop:
    failed reads, a raising callback, a zero or negative rate and pauses
    never end it. *)
Theorem task_survives_failures :
  forall (acts : list action) (self : UltrasonicMonitor),
    thread self = Alive -> running self = true -> _stop_event self = false ->
    forallb (fun a => negb (is_stop a)) acts = true ->
    let s := fst (exec acts self) in
    thread s = Alive /\ running s = true /\ _stop_event s = false.
Proof.
  induction acts as [| a rest IH]; intros self Ht Hr Hs Hacts; cbv zeta.
  - cbn. auto.
  - cbn [forallb] in Hacts. apply andb_true_iff in Hacts.
    destruct Hacts as [Ha Hrest]. apply negb_true_iff in Ha.
    rewrite exec_cons. cbn [fst].
    destruct (step_keeps_alive a self Ha (conj Ht (conj Hr Hs)))
      as (Ht' & Hr' & Hs').
    now apply IH.
Qed.

Lemma task_survives_failures_witness :
  let self :=
    state (start_continuous 0
             (state (set_callback (Some (fun _ => Raise CallbackError))
                       __init__))) in
  let acts :=
    [Tick (Raise SensorReadError) 1; Tick (Ret 25) 2;
     Call_start_continuous (- (3 # 1)); Tick (Ret 30) 3;
     Call_stop_continuous; Tick (Ret 31) 4] in
  thread (fst (exec acts self)) = Alive.
Proof.
  cbv zeta.
  refine (proj1 (task_survives_failures _ _ _ _ _ _)); reflexivity.
Defined.

(** A thread whose loop has ended stays ended. *)
Lemma step_finished a self :
  thread self = Finished ->
  thread (fst (step a self)) = Finished /\
  task_events (snd (step a self)) = [].
Proof.
  intros Ht. rewrite task_events_step.
  destruct self as [rn ct r0 ld cbk se th]. cbn in Ht. subst th.
  destruct a as [reading now | cb | r | | reading |]; cbn; auto.
  - destruct rn; cbn; auto.
  - destruct reading; cbn; auto.
Qed.

(** X16.  Once the loop of [run] has ended, nothing revives it: no later call
    makes the thread read again or spawns another one, and
    [start_continuous] raises whenever it tries to start it. *)
Theorem finished_thread_is_never_revived :
  forall (acts : list action) (self : UltrasonicMonitor),
    thread self = Finished ->
    thread (fst (exec acts self)) = Finished /\
    task_events (snd (exec acts self)) = [] /\
    launches (List.map snd (snd (exec acts self))) = 0%nat /\
    (forall rate,
        running self = false ->
        result (start_continuous rate self) = Raise RuntimeError).
Proof.
  intros acts self Ht.
  assert (H12 : thread (fst (exec acts self)) = Finished /\
                task_events (snd (exec acts self)) = []).
  { revert self Ht.
    induction acts as [| a rest IH]; intros self Ht; [cbn; auto |].
    rewrite exec_cons. cbn [fst snd].
    destruct (step_finished a self Ht) as [Ht' He].
    rewrite task_events_app, He. cbn [app]. now apply IH. }
  destruct H12 as [H1 H2].
  split; [exact H1 |]. split; [exact H2 |]. split.
  - apply exec_after_launch. congruence.
  - intros rate Hr.
    destruct self as [rn ct r0 ld cbk se th]. cbn in Ht, Hr. subst.
    reflexivity.
Qed.

Lemma finished_thread_is_never_revived_witness :
  let self :=
    fst (exec [Call_start_continuous 5; Call_stop; Tick (Ret 25) 0] __init__) in
  thread self = Finished /\
  task_events
    (snd (exec [Call_start_continuous 9; Tick (Ret 30) 1] self)) = [].
Proof.
  cbv zeta. split; [reflexivity |].
  refine (proj1 (proj2 (finished_thread_is_never_revived _ _ _))).
  reflexivity.
Defined.

(** X17.  [start_ultrasonic_monitor] on a monitor never started: the thread is
    spawned with [running] still false, so its loop ends at the first
    check without a read; a second call raises, and so does every later
    [start_continuous]. *)
Theorem start_ultrasonic_monitor_thread_exits :
  forall (self : UltrasonicMonitor) (cb cb' : option Callback)
         (reading : outcome Q) (now rate : Q),
    thread self = Initial -> running self = false ->
    let r := start_ultrasonic_monitor cb self in
    result r = Ret tt /\
    launches (trace r) = 1%nat /\
    running (state r) = false /\
    run_turn reading now (state r) = (set_thread Finished (state r), []) /\
    result (start_ultrasonic_monitor cb' (state r)) = Raise RuntimeError /\
    result (start_continuous rate (set_thread Finished (state r)))
    = Raise RuntimeError.
Proof.
  intros self cb cb' reading now rate Ht Hr. cbv zeta.
  destruct self as [rn ct r0 ld cbk se th]. cbn in Ht, Hr. subst.
  destruct cb, cb'; repeat split.
Qed.

Lemma start_ultrasonic_monitor_thread_exits_witness :
  thread __init__ = Initial /\ running __init__ = false /\
  run_turn (Ret 25) 0 (state (start_ultrasonic_monitor None __init__))
  = (set_thread Finished (state (start_ultrasonic_monitor None __init__)), []).
Proof.
  split; [reflexivity |]. split; [reflexivity |].
  pose proof (start_ultrasonic_monitor_thread_exits __init__ None None
                (Ret 25) 0 5 eq_refl eq_refl) as H.
  cbv zeta in H. exact (proj1 (proj2 (proj2 (proj2 H)))).
Defined.

(** In one loop turn the callback is called at most as often as the sensor
    is read, and the sensor is read at most once. *)
Lemma run_turn_counts reading now self :
  (List.length (delivered (snd (run_turn reading now self)))
   <= reads (snd (run_turn reading now self)))%nat /\
  (reads (snd (run_turn reading now self)) <= 1)%nat.
Proof.
  unfold run_turn.
  destruct (thread self); try (cbn; lia).
  destruct (run_condition self); [| cbn; lia].
  cbn [snd]. change (snd (run_body reading now self))
    with (trace (run_body reading now self)).
  rewrite run_body_delivered, run_body_reads.
  destruct (continuous self); [| cbn; lia].
  destruct reading; [| cbn; lia].
  destruct (callback self); [| cbn; lia].
  destruct (Qgeb a 0); cbn; lia.
Qed.

(** X18.  In every execution the callback is called at most once per sensor
    read of the thread, and the thread reads at most once per loop turn. *)
Theorem callbacks_reads_turns :
  forall (acts : list action) (self : UltrasonicMonitor),
    let t := task_events (snd (exec acts self)) in
    (List.length (delivered t) <= reads t)%nat /\ (reads t <= ticks acts)%nat.
Proof.
  induction acts as [| a rest IH]; intros self; cbv zeta.
  - cbn. lia.
  - rewrite exec_cons. cbn [snd].
    rewrite task_events_app, delivered_app, reads_app, length_app,
      task_events_step.
    specialize (IH (fst (step a self))). cbv zeta in IH.
    destruct IH as [IH1 IH2].
    destruct a as [reading now | | | | |]; cbn [ticks];
      try (cbn [delivered reads List.length filter Nat.add]; lia).
    destruct (run_turn_counts reading now self) as [H1 H2]. lia.
Qed.

Lemma expected_deliveries_cons a rest :
  expected_deliveries (a :: rest)
  = expected_deliveries [a] ++ expected_deliveries rest.
Proof.
  destruct a as [[d | e] now | | | | |]; try reflexivity.
  cbn. destruct (Qgeb d 0); reflexivity.
Qed.

Lemma last_good_cons a rest d0 :
  last_good (a :: rest) d0 = last_good rest (last_good [a] d0).
Proof.
  destruct a as [[d | e] now | | | | [d | e] |]; reflexivity.
Qed.

(** One action of a sampling monitor. *)
Lemma step_sampling a self :
  sampling self -> keeps_sampling a = true ->
  sampling (fst (step a self)) /\
  delivered (task_events (snd (step a self))) = expected_deliveries [a] /\
  last_distance (fst (step a self)) = last_good [a] (last_distance self).
Proof.
  intros (Ht & Hr & Hs & Hc & Hcb) Ha. rewrite task_events_step.
  destruct a as [reading now | cb | r | | reading |]; try discriminate Ha.
  - unfold step, run_turn, run_condition. rewrite Ht, Hr, Hs.
    cbn [andb negb fst snd].
    change (snd (run_body reading now self))
      with (trace (run_body reading now self)).
    destruct (run_body_state reading now self) as [Hst _].
    rewrite run_body_delivered, Hst, Hc.
    destruct (callback self) as [c |] eqn:Ecb; [| congruence].
    unfold sampling.
    destruct reading as [d | e]; cbn;
      rewrite ?Ht, ?Hr, ?Hs, ?Hc, ?Ecb;
      repeat split; congruence.
  - destruct cb as [c |]; [| discriminate Ha].
    unfold sampling. destruct self; cbn in *.
    repeat split; try assumption. discriminate.
  - unfold sampling.
    destruct self as [rn ct r0 ld cbk se th]; cbn in *; subst; cbn.
    repeat split; assumption.
  - unfold sampling.
    destruct self as [rn ct r0 ld cbk se th]; destruct reading; cbn in *;
      repeat split; assumption.
Qed.

(** X19.  While the monitor samples with a callback (live thread, [continuous]
    set, no [stop()], no pause, callback not removed), no reading is lost:
    the callback receives exactly one dict per loop turn whose sensor value
    is [>= 0], in order, with that turn's time stamp, and [last_distance]
    ends as the last value the sensor returned, failed reads leaving it
    alone. *)
Theorem sampling_delivers_every_reading :
  forall (acts : list action) (self : UltrasonicMonitor),
    sampling self ->
    forallb keeps_sampling acts = true ->
    delivered (task_events (snd (exec acts self))) = expected_deliveries acts /\
    last_distance (fst (exec acts self)) = last_good acts (last_distance self) /\
    sampling (fst (exec acts self)).
Proof.
  induction acts as [| a rest IH]; intros self Hsam Hacts.
  - cbn. auto.
  - cbn [forallb] in Hacts. apply andb_true_iff in Hacts.
    destruct Hacts as [Ha Hrest].
    destruct (step_sampling a self Hsam Ha) as (Hsam' & Hd & Hl).
    destruct (IH _ Hsam' Hrest) as (IHd & IHl & IHs).
    rewrite exec_cons. cbn [fst snd].
    rewrite task_events_app, delivered_app, Hd, IHd, IHl, Hl.
    rewrite (expected_deliveries_cons a rest), (last_good_cons a rest).
    split; [reflexivity |]. split; [reflexivity | exact IHs].
Qed.

Lemma sampling_delivers_every_reading_witness :
  let self :=
    state (start_continuous 10
             (state (set_callback (Some (fun _ => Raise CallbackError))
                       __init__))) in
  let acts :=
    [Tick (Ret (12345 # 1000)) 1; Tick (Raise SensorReadError) 2;
     Call_get_single_reading (Ret 40); Tick (Ret (- (1 # 1))) 3;
     Call_start_continuous 0; Tick (Ret 7) 4;
     Call_get_single_reading (Raise SensorReadError)] in
  sampling self /\ forallb keeps_sampling acts = true /\
  delivered (task_events (snd (exec acts self)))
  = [mkSensorData "ultrasonic" (round (12345 # 1000) 2) 1;
     mkSensorData "ultrasonic" (round 7 2) 4] /\
  last_distance (fst (exec acts self)) = 7.
Proof.
  cbv zeta.
  assert (Hs : sampling
                 (state (start_continuous 10
                    (state (set_callback
                              (Some (fun _ => Raise CallbackError))
                              __init__))))).
  { unfold sampling. cbn. repeat split; discriminate. }
  split; [exact Hs |]. split; [reflexivity |].
  destruct (sampling_delivers_every_reading
              [Tick (Ret (12345 # 1000)) 1; Tick (Raise SensorReadError) 2;
               Call_get_single_reading (Ret 40); Tick (Ret (- (1 # 1))) 3;
               Call_start_continuous 0; Tick (Ret 7) 4;
               Call_get_single_reading (Raise SensorReadError)]
              _ Hs eq_refl) as (Hd & Hl & _).
  split; [exact Hd | exact Hl].
Defined.

End MonitorMore.

(* ====================================================================== *)
(** * Part VII: properties of the battery monitor                         *)
(* ====================================================================== *)

Section BatteryFacts.
Import Move Monitor Battery.

Lemma round_half_even_comp x y :
  x == y -> round_half_even x = round_half_even y.
Proof.
  intros E. unfold round_half_even, Qltb, Qgtb.
  rewrite (Qfloor_comp x y E).
  assert (Er : x - inject_Z (Qfloor y) == y - inject_Z (Qfloor y))
    by (rewrite E; reflexivity).
  rewrite (Qleb_comp _ _ (Qeq_refl (1 # 2)) _ _ Er).
  rewrite (Qleb_comp _ _ Er _ _ (Qeq_refl (1 # 2))).
  reflexivity.
Qed.

(** Rounding to the nearest integer keeps the order. *)
Lemma round_half_even_monotone x y :
  x <= y -> (round_half_even x <= round_half_even y)%Z.
Proof.
  intros Hxy.
  destruct (Z_le_gt_dec (round_half_even x) (round_half_even y))
    as [Hle | Hgt]; [exact Hle | exfalso].
  assert (Hstep : (round_half_even y + 1 <= round_half_even x)%Z) by lia.
  rewrite Zle_Qle, inject_Z_plus in Hstep. change (inject_Z 1) with 1 in Hstep.
  pose proof (round_half_even_near x) as [_ Hx].
  pose proof (round_half_even_near y) as [Hy _].
  assert (E : x == y) by lra.
  apply round_half_even_comp in E. lia.
Qed.

Lemma percentage_middle v :
  6 < v -> v < 84 # 10 ->
  0 <= (v - 6) / ((84 # 10) - 6) * 100 <= 100.
Proof.
  intros H6 H84.
  assert (E : (v - 6) / ((84 # 10) - 6) * 100 == (v - 6) * (1000 # 24))
    by field.
  rewrite E. split; lra.
Qed.

Lemma percentage_range v : (0 <= get_battery_percentage v <= 100)%Z.
Proof.
  unfold get_battery_percentage.
  destruct (Qgeb v (84 # 10)) eqn:Hhi; [lia |].
  assert (Hlt : v < 84 # 10).
  { apply Qnot_le_lt. intros H. apply Qgeb_true in H. congruence. }
  destruct (Qle_bool v 6) eqn:Hlo; [lia |].
  assert (H6 : 6 < v).
  { apply Qnot_le_lt. intros H. apply Qle_bool_iff in H. congruence. }
  pose proof (percentage_middle v H6 Hlt) as [Hp0 Hp100].
  split.
  - now apply round_half_even_nonneg.
  - pose proof (round_half_even_near
                  ((v - 6) / ((84 # 10) - 6) * 100)) as [_ Hup].
    assert (Hq : inject_Z (round_half_even
                   ((v - 6) / ((84 # 10) - 6) * 100)) < inject_Z 101).
    { change (inject_Z 101) with 101. lra. }
    rewrite <- Zlt_Qlt in Hq. lia.
Qed.

(** X20.  The percentage is an integer between 0 and 100 for every voltage, 0
    up to 6.0 V and 100 from 8.4 V on. *)
Theorem get_battery_percentage_bounds :
  forall v : Q,
    (0 <= get_battery_percentage v <= 100)%Z /\
    (v <= 6 -> get_battery_percentage v = 0%Z) /\
    (84 # 10 <= v -> get_battery_percentage v = 100%Z).
Proof.
  intros v. split; [apply percentage_range |].
  unfold get_battery_percentage. split.
  - intros Hlow.
    destruct (Qgeb v (84 # 10)) eqn:Hhi;
      [apply Qgeb_true in Hhi; lra |].
    apply Qle_bool_iff in Hlow. now rewrite Hlow.
  - intros Hfull. apply Qgeb_true in Hfull. now rewrite Hfull.
Qed.

Lemma get_battery_percentage_bounds_witness :
  5 <= 6 /\ get_battery_percentage 5 = 0%Z.
Proof.
  split; [discriminate |].
  destruct (get_battery_percentage_bounds 5) as (_ & H & _).
  apply H. discriminate.
Defined.

(** X21.  A higher voltage never gives a lower percentage, nor a worse status
    text. *)
Theorem battery_level_monotone :
  forall v1 v2 : Q,
    v1 <= v2 ->
    (get_battery_percentage v1 <= get_battery_percentage v2)%Z /\
    (severity (get_status_text (get_battery_percentage v2))
     <= severity (get_status_text (get_battery_percentage v1)))%Z.
Proof.
  intros v1 v2 Hv.
  assert (Hp : (get_battery_percentage v1 <= get_battery_percentage v2)%Z).
  { pose proof (percentage_range v1) as (_ & H1).
    pose proof (percentage_range v2) as (H2 & _).
    unfold get_battery_percentage in *.
    destruct (Qgeb v2 (84 # 10)) eqn:Hhi2; [exact H1 |].
    assert (Hlt2 : v2 < 84 # 10).
    { apply Qnot_le_lt. intros H. apply Qgeb_true in H. congruence. }
    replace (Qgeb v1 (84 # 10)) with false
      by (symmetry; apply not_true_iff_false; intros H;
          apply Qgeb_true in H; lra).
    destruct (Qle_bool v1 6) eqn:Hlo1; [exact H2 |].
    assert (H6 : 6 < v1).
    { apply Qnot_le_lt. intros H. apply Qle_bool_iff in H. congruence. }
    replace (Qle_bool v2 6) with false
      by (symmetry; apply not_true_iff_false; intros H;
          apply Qle_bool_iff in H; lra).
    apply round_half_even_monotone.
    assert (E1 : (v1 - 6) / ((84 # 10) - 6) * 100 == (v1 - 6) * (1000 # 24))
      by field.
    assert (E2 : (v2 - 6) / ((84 # 10) - 6) * 100 == (v2 - 6) * (1000 # 24))
      by field.
    rewrite E1, E2. lra. }
  split; [exact Hp |].
  revert Hp.
  generalize (get_battery_percentage v1) (get_battery_percentage v2).
  intros p1 p2 Hp. unfold get_status_text.
  destruct (p1 >? 75)%Z eqn:A1; destruct (p1 >? 50)%Z eqn:A2;
    destruct (p1 >? 25)%Z eqn:A3; destruct (p1 >? 10)%Z eqn:A4;
    destruct (p2 >? 75)%Z eqn:B1; destruct (p2 >? 50)%Z eqn:B2;
    destruct (p2 >? 25)%Z eqn:B3; destruct (p2 >? 10)%Z eqn:B4;
    cbn; try lia;
    rewrite ?Z.gtb_ltb, ?Z.ltb_lt, ?Z.ltb_ge in *; lia.
Qed.

Lemma battery_level_monotone_witness :
  7 <= 78 # 10 /\
  (get_battery_percentage 7 <= get_battery_percentage (78 # 10))%Z.
Proof.
  split; [discriminate |].
  apply (battery_level_monotone 7 (78 # 10)). discriminate.
Defined.

Lemma round_2_monotone x y : x <= y -> round x 2 <= round y 2.
Proof.
  intros H. unfold round. change (Qpower 10 2) with 100.
  assert (H100 : x * 100 <= y * 100) by lra.
  apply round_half_even_monotone in H100.
  rewrite Zle_Qle in H100.
  set (a := inject_Z (round_half_even (x * 100))) in *.
  set (b := inject_Z (round_half_even (y * 100))) in *.
  assert (Ea : a / 100 == a * (1 # 100)) by field.
  assert (Eb : b / 100 == b * (1 # 100)) by field.
  rewrite Ea, Eb. lra.
Qed.

(** X22.  A successful read on an initialised monitor: the 16-bit ADC value is
    scaled to a voltage in [0, 8.4], which is stored in [last_voltage];
    the status reports it rounded to two decimals, still in [0, 8.4], with
    a percentage in [0, 100], and nothing is printed. *)
Theorem get_battery_status_range :
  forall (z : Z) (self : BatteryMonitor),
    initialized self = true -> (0 <= z <= 65535)%Z ->
    let r := get_battery_status (Monitor.Ret z) self in
    let st := fst (fst r) in
    0 <= voltage st <= 84 # 10 /\
    (0 <= percentage st <= 100)%Z /\
    status st = get_status_text (percentage st) /\
    status_initialized st = true /\
    last_voltage (snd (fst r)) == inject_Z z / 65535 * (84 # 10) /\
    0 <= last_voltage (snd (fst r)) <= 84 # 10 /\
    snd r = [].
Proof.
  intros z self Hi [Hz0 Hz1]. cbv zeta.
  unfold get_battery_status, read_voltage. rewrite Hi. cbn [negb fst snd].
  cbn [voltage percentage status status_initialized last_voltage initialized].
  set (v := inject_Z z / 65535 * (84 # 10)).
  assert (Hv : 0 <= v <= 84 # 10).
  { unfold v.
    assert (E : inject_Z z / 65535 * (84 # 10) == inject_Z z * (84 # 655350))
      by field.
    rewrite E.
    rewrite Zle_Qle in Hz0, Hz1.
    change (inject_Z 0) with 0 in Hz0.
    change (inject_Z 65535) with 65535 in Hz1.
    split; lra. }
  destruct Hv as [Hv0 Hv1].
  repeat split; try assumption; try reflexivity.
  - now apply round_2_nonneg.
  - apply (round_2_monotone v (84 # 10)) in Hv1.
    assert (E : round (84 # 10) 2 == 84 # 10) by reflexivity.
    rewrite E in Hv1. exact Hv1.
  - apply (percentage_range v).
  - apply (percentage_range v).
Qed.

Lemma get_battery_status_range_witness :
  let self := mkBattery true 0 in
  let r := get_battery_status (Monitor.Ret 60000%Z) self in
  initialized self = true /\ (0 <= 60000 <= 65535)%Z /\
  0 <= voltage (fst (fst r)) <= 84 # 10 /\
  (0 <= percentage (fst (fst r)) <= 100)%Z.
Proof.
  cbv zeta. split; [reflexivity |]. split; [lia |].
  pose proof (get_battery_status_range 60000 (mkBattery true 0) eq_refl) as H.
  cbv zeta in H.
  destruct H as (Hv & Hp & _); [lia |].
  split; [exact Hv | exact Hp].
Defined.

(** X23.  When the ADC was never initialised, or raises, [read_voltage] returns
    the last voltage and changes nothing, so the status is that of the
    last good voltage; only a raising read prints a message. *)
Theorem get_battery_status_falls_back :
  forall (value : Monitor.outcome Z) (self : BatteryMonitor),
    initialized self = false \/ (exists e, value = Monitor.Raise e) ->
    let r := get_battery_status value self in
    fst (fst r)
    = mkStatus (round (last_voltage self) 2)
               (get_battery_percentage (last_voltage self))
               (get_status_text (get_battery_percentage (last_voltage self)))
               (initialized self) /\
    snd (fst r) = self /\
    fst (fst (read_voltage value self)) = last_voltage self /\
    (initialized self = false -> snd r = []).
Proof.
  intros value self H. cbv zeta.
  unfold get_battery_status, read_voltage.
  destruct (initialized self) eqn:Hi; cbn [negb].
  - destruct H as [H | [e ->]]; [discriminate H |].
    cbn. rewrite Hi. repeat split. intros H; discriminate H.
  - cbn. rewrite Hi. repeat split.
Qed.

Lemma get_battery_status_falls_back_witness :
  let self := mkBattery false 0 in
  initialized self = false /\
  fst (fst (get_battery_status (Monitor.Ret 60000%Z) self))
  = mkStatus (round 0 2) 0 "Critical" false.
Proof.
  cbv zeta. split; [reflexivity |].
  pose proof (get_battery_status_falls_back (Monitor.Ret 60000%Z)
                (mkBattery false 0) (or_introl eq_refl)) as H.
  cbv zeta in H. exact (proj1 H).
Defined.

End BatteryFacts.
